(** * An instrumented Redis cache: [0x02-redis_basic/exercise.py]

    A shallow embedding of the module and of the part of the Redis client
    it talks to, followed by the properties of the call-count and
    call-history decorators, of the cache facade and of [replay].

    What the embedding takes from outside the module:
    - the client is [redis.Redis()] as the module builds it: responses are
      not decoded, so every reply carrying data is [bytes]; a value is
      encoded before it is sent, and [None] or a [bool] is refused with
      [DataError];
    - the server keeps strings and lists, answers [WRONGTYPE] to a command
      on the other kind, and counts in signed 64-bit integers;
    - integers are printed and read in base 10; the interpreter converts
      an integer to or from a text of at most 4300 digits and raises
      [ValueError] beyond, and the printing and reading functions below are
      the conversions within that limit: a property that ranges over every
      integer or every numeral says so with [printable] or [readable];
    - an object keeps the [_redis] it has for the length of a call. *)

From Stdlib Require Import ZArith Ascii String List Bool Lia.
From stdpp Require Import gmap strings list fin_maps.

Local Open Scope string_scope.
Local Open Scope list_scope.
Local Open Scope Z_scope.

(** ** Byte strings

    A Python [bytes] object is a Rocq [string]: a sequence of 8-bit
    characters.  A Python [str] is kept as its UTF-8 encoding, so that
    [str.encode('utf-8')] is the identity on the representation and
    [bytes.decode('utf-8')] checks well-formedness. *)

Module Bytes.

Definition squote : ascii := "'"%char.
Definition dquote : ascii := ascii_of_N 34.
Definition backslash : ascii := "\"%char.

Definition code (c : ascii) : Z := Z.of_N (N_of_ascii c).

Fixpoint mem (c : ascii) (s : string) : bool :=
  match s with
  | EmptyString => false
  | String d r => if Ascii.eqb c d then true else mem c r
  end.

Definition hex_digit (n : Z) : ascii :=
  nth (Z.to_nat n) (list_ascii_of_string "0123456789abcdef") "0"%char.

(** One byte of [repr(b)], as [bytes.__repr__] writes it. *)
Definition escape (quote c : ascii) : string :=
  if Ascii.eqb c quote || Ascii.eqb c backslash then String backslash (String c "")
  else if code c =? 9 then String backslash "t"
  else if code c =? 10 then String backslash "n"
  else if code c =? 13 then String backslash "r"
  else if (code c <? 32) || (127 <=? code c)
       then String backslash
              (String "x" (String (hex_digit (code c / 16))
                                  (String (hex_digit (code c mod 16)) "")))
  else String c "".

Fixpoint escape_all (quote : ascii) (s : string) : string :=
  match s with
  | EmptyString => EmptyString
  | String c r => escape quote c +:+ escape_all quote r
  end.

(** [repr(b)] for [b : bytes]: single quotes unless the value holds a single
    quote and no double quote. *)
Definition repr (b : string) : string :=
  let quote := if mem squote b && negb (mem dquote b) then dquote else squote in
  String "b" (String quote (escape_all quote b +:+ String quote "")).

(** *** UTF-8 well-formedness (the strict decoder)

    [pending] continuation bytes are still expected; the next one must lie
    in [lo..hi]. *)
Fixpoint utf8_scan (pending : nat) (lo hi : Z) (s : string) : bool :=
  match s with
  | EmptyString => match pending with O => true | S _ => false end
  | String c r =>
      let b := code c in
      match pending with
      | O =>
          if b <=? 127 then utf8_scan 0 128 191 r
          else if (194 <=? b) && (b <=? 223) then utf8_scan 1 128 191 r
          else if b =? 224 then utf8_scan 2 160 191 r
          else if b =? 237 then utf8_scan 2 128 159 r
          else if (225 <=? b) && (b <=? 239) then utf8_scan 2 128 191 r
          else if b =? 240 then utf8_scan 3 144 191 r
          else if (241 <=? b) && (b <=? 243) then utf8_scan 3 128 191 r
          else if b =? 244 then utf8_scan 3 128 143 r
          else false
      | S p =>
          if (lo <=? b) && (b <=? hi) then utf8_scan p 128 191 r else false
      end
  end.

Definition valid_utf8 (s : string) : bool := utf8_scan 0 128 191 s.

(** *** Decimal integers *)

Definition digit_char (d : Z) : ascii := ascii_of_N (48 + Z.to_N d).

Fixpoint dec_loop (fuel : nat) (n : Z) (acc : string) : string :=
  match fuel with
  | O => acc
  | S f =>
      let acc' := String (digit_char (n mod 10)) acc in
      if n <? 10 then acc' else dec_loop f (n / 10) acc'
  end.

Definition dec_nat (n : Z) : string := dec_loop (S (Z.to_nat (Z.log2 n))) n "".

(** [repr(z)] for an [int]. *)
Definition repr_int (z : Z) : string :=
  if z <? 0 then String "-" (dec_nat (- z)) else dec_nat z.

Definition is_digit (c : ascii) : bool := (48 <=? code c) && (code c <=? 57).

Definition is_space (c : ascii) : bool :=
  ((9 <=? code c) && (code c <=? 13)) || (code c =? 32).

(** Digits of a base-10 literal; one underscore may sit between two digits.
    [seen] says that the previous character was a digit. *)
Fixpoint digits (s : string) (acc : Z) (seen : bool) : option Z :=
  match s with
  | EmptyString => if seen then Some acc else None
  | String c r =>
      if is_digit c then digits r (10 * acc + (code c - 48)) true
      else if Ascii.eqb c "_"%char && seen then digits r acc false
      else None
  end.

Fixpoint lstrip (s : string) : string :=
  match s with
  | EmptyString => EmptyString
  | String c r => if is_space c then lstrip r else s
  end.

Fixpoint rstrip (s : string) : string :=
  match s with
  | EmptyString => EmptyString
  | String c r =>
      match rstrip r with
      | EmptyString => if is_space c then EmptyString else String c EmptyString
      | r' => String c r'
      end
  end.

Definition strip (s : string) : string := rstrip (lstrip s).

(** [int(b)] for [b : bytes]; [None] is [ValueError]. *)
Definition parse_int (s : string) : option Z :=
  match strip s with
  | EmptyString => None
  | String c r =>
      if Ascii.eqb c "-"%char then option_map Z.opp (digits r 0 false)
      else if Ascii.eqb c "+"%char then digits r 0 false
      else digits (String c r) 0 false
  end.

(** [repr(s)] for a [str] of ASCII characters, where it is [bytes.__repr__]
    without the prefix. *)
Definition repr_ascii (s : string) : string :=
  let quote := if mem squote s && negb (mem dquote s) then dquote else squote in
  String quote (escape_all quote s +:+ String quote "").

End Bytes.

(** ** An interpreter for the examples

    Programs without floats, over ASCII text, with three identifiers of the
    form [uuid.uuid4] yields. *)

Module Sample.

Definition repr_float (f : Empty_set) : string := match f with end.

Definition uuid4 (n : nat) : string :=
  match n with
  | O => "1b4e28ba-2fa1-41d2-883f-0016d3cca427"
  | S O => "6fa459ea-ee8a-4ca4-894e-db77e160355e"
  | _ => "16fd2706-8baf-433b-82eb-8c7fada847da"
  end.

End Sample.

(** ** The Redis server and the effects of a call

    The server maps a key to a string or to a list of strings.  [wire]
    keeps the commands the client sent, oldest first; [entropy] counts the
    identifiers drawn from [uuid.uuid4]; [stdout] keeps the printed lines. *)

Inductive rval :=
  | RString (b : string)
  | RList (l : list string).

Inductive command :=
  | FLUSHDB
  | SET (key value : string)
  | GET (key : string)
  | INCR (key : string)
  | RPUSH (key value : string)
  | LRANGE (key : string) (start stop : Z)
  | EXISTS (key : string).

Record world := World {
  server : gmap string rval;
  wire : list command;
  entropy : nat;
  stdout : list string
}.

Inductive exn :=
  | AttributeError (name : string)
  | TypeError
  | ValueError
  | OverflowError
  | UnicodeDecodeError
  | DataError
  | ResponseError (message : string)
  | Exception (tag : string).

Inductive outcome (A : Type) :=
  | Ok (a : A)
  | Raise (e : exn).
Arguments Ok {A} a.
Arguments Raise {A} e.

(** A computation reads and writes the world and returns or raises; what it
    wrote before raising stays written. *)
Definition M (A : Type) : Type := world -> outcome A * world.

Definition ret {A} (a : A) : M A := fun w => (Ok a, w).
Definition raise {A} (e : exn) : M A := fun w => (Raise e, w).
Definition bind {A B} (c : M A) (k : A -> M B) : M B :=
  fun w => match c w with
           | (Ok a, w') => k a w'
           | (Raise e, w') => (Raise e, w')
           end.

Notation "'let*' x := c 'in' k" := (bind c (fun x => k))
  (at level 10, x name, c at level 100, k at level 200).
Notation "c ;; k" := (bind c (fun _ => k))
  (at level 100, k at level 200, right associativity).

Definition send (c : command) : M unit :=
  fun w => (Ok tt, World (server w) (wire w ++ [c]) (entropy w) (stdout w)).

Definition lookup_key (key : string) : M (option rval) :=
  fun w => (Ok (server w !! key), w).

Definition write_key (key : string) (v : rval) : M unit :=
  fun w => (Ok tt, World (<[key := v]> (server w)) (wire w) (entropy w) (stdout w)).

Definition drop_all : M unit :=
  fun w => (Ok tt, World ∅ (wire w) (entropy w) (stdout w)).

(** [print(line)] *)
Definition print (line : string) : M unit :=
  fun w => (Ok tt, World (server w) (wire w) (entropy w) (stdout w ++ [line])).

Definition int64_min : Z := - 2 ^ 63.
Definition int64_max : Z := 2 ^ 63 - 1.

(** The server reads an integer only in its canonical decimal form and in
    the signed 64-bit range. *)
Definition string2ll (s : string) : option Z :=
  match Bytes.parse_int s with
  | Some n =>
      if String.eqb (Bytes.repr_int n) s && (int64_min <=? n) && (n <=? int64_max)
      then Some n else None
  | None => None
  end.

Definition WRONGTYPE : exn :=
  ResponseError "WRONGTYPE Operation against a key holding the wrong kind of value".

(** [LRANGE]: negative indices count from the end. *)
Definition lrange_slice (l : list string) (start stop : Z) : list string :=
  let n := Z.of_nat (length l) in
  let s := if start <? 0 then Z.max 0 (n + start) else start in
  let e := if stop <? 0 then n + stop else stop in
  if (e <? s) || (n <=? s) then []
  else firstn (Z.to_nat (Z.min e (n - 1) - s + 1)) (skipn (Z.to_nat s) l).

Section Exercise.

(** Builtins whose results are tables of the interpreter: the type of
    floats with its [repr] and [int], [repr] and [int] of a [str], and the
    stream of identifiers [str(uuid.uuid4())] yields. *)
Variable pyfloat : Type.
Variable repr_float : pyfloat -> string.
Variable int_float : pyfloat -> outcome Z.
Variable repr_text : string -> string.
Variable int_text : string -> option Z.
Variable uuid4 : nat -> string.

Inductive pyval :=
  | VNone
  | VBool (b : bool)
  | VStr (s : string)
  | VBytes (b : string)
  | VInt (z : Z)
  | VFloat (f : pyfloat).

(** [repr(v)] *)
Definition py_repr (v : pyval) : string :=
  match v with
  | VNone => "None"
  | VBool true => "True"
  | VBool false => "False"
  | VStr s => repr_text s
  | VBytes b => Bytes.repr b
  | VInt z => Bytes.repr_int z
  | VFloat f => repr_float f
  end.

(** [str(v)] *)
Definition py_str (v : pyval) : string :=
  match v with
  | VStr s => s
  | _ => py_repr v
  end.

Fixpoint join_reprs (vs : list pyval) : string :=
  match vs with
  | [] => ""
  | [v] => py_repr v
  | v :: rest => py_repr v +:+ ", " +:+ join_reprs rest
  end.

(** [str(args)] for the tuple of positional arguments. *)
Definition str_args (args : list pyval) : string :=
  match args with
  | [v] => "(" +:+ py_repr v +:+ ",)"
  | _ => "(" +:+ join_reprs args +:+ ")"
  end.

(** [int(v)] *)
Definition py_int (v : pyval) : M Z :=
  match v with
  | VNone => raise TypeError
  | VBool b => ret (if b then 1 else 0)
  | VInt z => ret z
  | VBytes b => match Bytes.parse_int b with
                | Some z => ret z
                | None => raise ValueError
                end
  | VStr s => match int_text s with
              | Some z => ret z
              | None => raise ValueError
              end
  | VFloat f => fun w => (int_float f, w)
  end.

(** [v.decode("utf-8")]: only [bytes] has the method here. *)
Definition py_decode (v : pyval) : M pyval :=
  match v with
  | VBytes b => if Bytes.valid_utf8 b then ret (VStr b) else raise UnicodeDecodeError
  | VStr _ => raise (AttributeError "decode")
  | _ => raise (AttributeError "decode")
  end.

(** Truth value, for [x or y]. *)
Definition truthy (v : pyval) : bool :=
  match v with
  | VNone => false
  | VBool b => b
  | VStr s => negb (String.eqb s "")
  | VBytes b => negb (String.eqb b "")
  | VInt z => negb (z =? 0)
  | VFloat _ => true
  end.

(** *** The client ([redis.Redis], responses not decoded) *)

(** What the client puts on the wire for a value: bytes as they are, text
    encoded, numbers through [repr]; anything else is refused. *)
Definition encode (v : pyval) : option string :=
  match v with
  | VBytes b => Some b
  | VStr s => Some s
  | VInt z => Some (Bytes.repr_int z)
  | VFloat f => Some (repr_float f)
  | VBool _ => None
  | VNone => None
  end.

Definition encoded (v : pyval) : M string :=
  match encode v with
  | Some b => ret b
  | None => raise DataError
  end.

Definition redis_flushdb : M unit :=
  send FLUSHDB ;; drop_all.

Definition redis_set (key : string) (value : pyval) : M unit :=
  let* b := encoded value in
  send (SET key b) ;;
  write_key key (RString b).

Definition redis_get (key : string) : M pyval :=
  send (GET key) ;;
  let* r := lookup_key key in
  match r with
  | None => ret VNone
  | Some (RString b) => ret (VBytes b)
  | Some (RList _) => raise WRONGTYPE
  end.

Definition redis_incr (key : string) : M Z :=
  send (INCR key) ;;
  let* r := lookup_key key in
  match r with
  | None => write_key key (RString (Bytes.repr_int 1)) ;; ret 1
  | Some (RString b) =>
      match string2ll b with
      | Some n =>
          if n <? int64_max
          then write_key key (RString (Bytes.repr_int (n + 1))) ;; ret (n + 1)
          else raise (ResponseError "ERR increment or decrement would overflow")
      | None => raise (ResponseError "ERR value is not an integer or out of range")
      end
  | Some (RList _) => raise WRONGTYPE
  end.

Definition redis_rpush (key : string) (value : pyval) : M Z :=
  let* b := encoded value in
  send (RPUSH key b) ;;
  let* r := lookup_key key in
  match r with
  | None => write_key key (RList [b]) ;; ret 1
  | Some (RList l) =>
      write_key key (RList (l ++ [b])) ;; ret (Z.of_nat (length l) + 1)
  | Some (RString _) => raise WRONGTYPE
  end.

Definition redis_lrange (key : string) (start stop : Z) : M (list pyval) :=
  send (LRANGE key start stop) ;;
  let* r := lookup_key key in
  match r with
  | None => ret []
  | Some (RList l) => ret (map VBytes (lrange_slice l start stop))
  | Some (RString _) => raise WRONGTYPE
  end.

Definition redis_exists (key : string) : M Z :=
  send (EXISTS key) ;;
  let* r := lookup_key key in
  match r with
  | None => ret 0
  | Some _ => ret 1
  end.

(** ** Objects *)

(** What the attribute [_redis] of an object may hold: a [redis.Redis]
    client, or a value of another type. *)
Inductive pyobj :=
  | Redis
  | Other (v : pyval).

(** An object with its attribute [_redis], if it has one. *)
Record instance := Instance { _redis : option pyobj }.

(** A function of [self, *args, **kwargs]. *)
Record pymethod := Method {
  __qualname__ : string;
  __call__ : instance -> list pyval -> list (string * pyval) -> M pyval
}.

(** [self._redis] *)
Definition self_redis (self : instance) : M pyobj :=
  match _redis self with
  | Some o => ret o
  | None => raise (AttributeError "_redis")
  end.

(** [isinstance(o, redis.Redis)] *)
Definition isinstance_Redis (o : pyobj) : bool :=
  match o with
  | Redis => true
  | Other _ => false
  end.

(** ** [count_calls] (lines 10-34) *)

Definition count_calls (method : pymethod) : pymethod :=
  Method (__qualname__ method)
    (fun self args kwargs =>
       let* r := self_redis self in
       (if isinstance_Redis r
        then redis_incr (__qualname__ method) ;; ret tt
        else ret tt) ;;
       __call__ method self args kwargs).

(** ** [call_history] (lines 37-60) *)

Definition call_history (method : pymethod) : pymethod :=
  Method (__qualname__ method)
    (fun self args kwargs =>
       let key_in := __qualname__ method +:+ ":inputs" in
       let key_out := __qualname__ method +:+ ":outputs" in
       let* r := self_redis self in
       (if isinstance_Redis r
        then redis_rpush key_in (VStr (str_args args)) ;; ret tt
        else ret tt) ;;
       let* output := __call__ method self args kwargs in
       let* r' := self_redis self in
       (if isinstance_Redis r'
        then redis_rpush key_out output ;; ret tt
        else ret tt) ;;
       ret output).

(** ** [class Cache] (lines 63-137) *)

(** [Cache()]: [__init__] (lines 76-81). *)
Definition Cache : M instance :=
  redis_flushdb ;; ret (Instance (Some Redis)).

(** [str(uuid.uuid4())] *)
Definition fresh_uuid : M string :=
  fun w => (Ok (uuid4 (entropy w)),
            World (server w) (wire w) (S (entropy w)) (stdout w)).

(** The one parameter [data] of [store], given by position or by name. *)
Definition bind_data (args : list pyval) (kwargs : list (string * pyval)) : M pyval :=
  match args, kwargs with
  | [data], [] => ret data
  | [], [(name, data)] => if String.eqb name "data" then ret data else raise TypeError
  | _, _ => raise TypeError
  end.

(** The function [store] of lines 85-97, before it is decorated. *)
Definition store : pymethod :=
  Method "Cache.store"
    (fun self args kwargs =>
       let* data := bind_data args kwargs in
       let* key := fresh_uuid in
       let* r := self_redis self in
       match r with
       | Redis => redis_set key data
       | Other _ => raise (AttributeError "set")
       end ;;
       ret (VStr key)).

(** [Cache.store]: lines 83-85. *)
Definition Cache_store : pymethod := count_calls (call_history store).

(** [Cache.get] (lines 99-118). *)
Definition Cache_get (self : instance) (key : string)
    (fn : option (pyval -> M pyval)) : M pyval :=
  let* r := self_redis self in
  let* data := match r with
               | Redis => redis_get key
               | Other _ => raise (AttributeError "get")
               end in
  match fn with
  | Some f => f data
  | None => ret data
  end.

(** [Cache.get_str] (lines 120-137). *)
Definition Cache_get_str (self : instance) (key : string) : M pyval :=
  let* data := Cache_get self key None in
  match data with
  | VNone => ret VNone
  | _ => ret (VStr (py_str data))
  end.

(** ** [get_int] (lines 140-158), a function of the module *)

Definition get_int (self : instance) (key : string) : M pyval :=
  let* data := Cache_get self key None in
  match data with
  | VNone => ret VNone
  | _ => let* z := py_int data in ret (VInt z)
  end.

(** The functions [def]ined in the body of [class Cache], and the names the
    module binds at its top level. *)
Inductive Cache_def := def_init | def_store | def_get | def_get_str.

Definition Cache_body : list (string * Cache_def) :=
  [("__init__", def_init); ("store", def_store);
   ("get", def_get); ("get_str", def_get_str)].

Definition module_body : list string :=
  ["count_calls"; "call_history"; "Cache"; "get_int"; "replay"].

Fixpoint assoc {A} (name : string) (l : list (string * A)) : option A :=
  match l with
  | [] => None
  | (n, a) :: rest => if String.eqb n name then Some a else assoc name rest
  end.

(** [cache.name(key)] for a [Cache] instance and a name that is not one of
    the special names every object has: the instance holds [_redis], the
    class holds [Cache_body]. *)
Definition call_method (self : instance) (name key : string) : M pyval :=
  if String.eqb name "_redis" then self_redis self ;; raise TypeError
  else match assoc name Cache_body with
       | Some def_init => raise TypeError
       | Some def_store => __call__ Cache_store self [VStr key] []
       | Some def_get => Cache_get self key None
       | Some def_get_str => Cache_get_str self key
       | None => raise (AttributeError name)
       end.

(** ** [replay] (lines 161-184) *)

(** What [replay] may be given: [None], a function (no [__self__]), or a
    method bound to an object. *)
Inductive pyfn :=
  | FNone
  | Function (qualname : string)
  | BoundMethod (self : instance) (qualname : string).

(** The line format of lines 179-184: the name, an opening parenthesis and
    a star, the input, then [") -> "] and the output. *)
Definition format_call (name : string) (i o : pyval) : string :=
  name +:+ "(" +:+ "*" +:+ py_str i +:+ ") -> " +:+ py_str o.

Definition isinstance_bytes (v : pyval) : bool :=
  match v with
  | VBytes _ => true
  | _ => false
  end.

(** The loop of lines 178-184 over [zip(fxn_inputs, fxn_outputs)]. *)
Fixpoint replay_loop (fxn_name : string) (pairs : list (pyval * pyval)) : M unit :=
  match pairs with
  | [] => ret tt
  | (fxn_input, fxn_output) :: rest =>
      let* i := py_decode fxn_input in
      let* o := if isinstance_bytes fxn_output
                then py_decode fxn_output else ret fxn_output in
      print (format_call fxn_name i o) ;;
      replay_loop fxn_name rest
  end.

Definition replay (fn : pyfn) : M unit :=
  match fn with
  | FNone => ret tt
  | Function _ => ret tt
  | BoundMethod self fxn_name =>
      match _redis self with
      | Some Redis =>
          let in_key := fxn_name +:+ ":inputs" in
          let out_key := fxn_name +:+ ":outputs" in
          let* present := redis_exists fxn_name in
          let* fxn_call_count :=
            if negb (present =? 0)
            then let* v := redis_get fxn_name in
                 py_int (if truthy v then v else VInt 0)
            else ret 0 in
          print (fxn_name +:+ " was called " +:+ Bytes.repr_int fxn_call_count
                 +:+ " times:") ;;
          let* fxn_inputs := redis_lrange in_key 0 (-1) in
          let* fxn_outputs := redis_lrange out_key 0 (-1) in
          replay_loop fxn_name (combine fxn_inputs fxn_outputs)
      | _ => ret tt
      end
  end.

(** ** Sequences of calls *)

(** One call after the other, up to the first that raises. *)
Fixpoint call_each (m : pymethod) (self : instance)
    (calls : list (list pyval * list (string * pyval))) : M (list pyval) :=
  match calls with
  | [] => ret []
  | (args, kwargs) :: rest =>
      let* r := __call__ m self args kwargs in
      let* rs := call_each m self rest in
      ret (r :: rs)
  end.

(** [try: c / except Exception: pass] *)
Definition attempt {A} (c : M A) : M unit :=
  fun w => (Ok tt, snd (c w)).

(** One call after the other, the caller going on when one raises. *)
Fixpoint attempt_each (m : pymethod) (self : instance)
    (calls : list (list pyval * list (string * pyval))) : M unit :=
  match calls with
  | [] => ret tt
  | (args, kwargs) :: rest =>
      attempt (__call__ m self args kwargs) ;; attempt_each m self rest
  end.

(** ** Reading the instrumentation keys *)

Definition inputs_key (name : string) : string := name +:+ ":inputs".
Definition outputs_key (name : string) : string := name +:+ ":outputs".

(** The counter of an operation; an unset key reads as 0. *)
Definition counter_value (w : world) (name : string) : option Z :=
  match server w !! name with
  | None => Some 0
  | Some (RString b) => string2ll b
  | Some (RList _) => None
  end.

(** A log, whole and in stored order; an unset key reads as the empty
    list. *)
Definition log_of (w : world) (key : string) : option (list string) :=
  match server w !! key with
  | None => Some []
  | Some (RList l) => Some l
  | Some (RString _) => None
  end.

(** An operation under [call_history] alone, or under [count_calls] on top
    of it as [Cache.store] is. *)
Definition decorated (counted : bool) (method : pymethod) : pymethod :=
  if counted then count_calls (call_history method) else call_history method.

(** The operation never writes [key]. *)
Definition leaves (method : pymethod) (key : string) : Prop :=
  forall self args kwargs w,
    server (snd (__call__ method self args kwargs w)) !! key = server w !! key.

(** The world once [cs] went over the wire and [key] holds [v]. *)
Definition written (w : world) (cs : list command) (key : string) (v : rval) : world :=
  World (<[key := v]> (server w)) (wire w ++ cs) (entropy w) (stdout w).


(** ** Transforms and small programs *)

(** The builtin [int] passed as [fn]. *)
Definition int_fn (v : pyval) : M pyval :=
  let* z := py_int v in ret (VInt z).

(** [lambda d: d.decode("utf-8")] passed as [fn]. *)
Definition decode_fn (v : pyval) : M pyval := py_decode v.

(** [cache = Cache(); cache.get(cache.store(v))] *)
Definition store_then_get (v : pyval) : M pyval :=
  let* cache := Cache in
  let* key := __call__ Cache_store cache [v] [] in
  Cache_get cache (py_str key) None.

(** [cache = Cache(); cache.get_str(cache.store(v))] *)
Definition store_then_get_str (v : pyval) : M pyval :=
  let* cache := Cache in
  let* key := __call__ Cache_store cache [v] [] in
  Cache_get_str cache (py_str key).

(** [cache = Cache(); cache.name(cache.store(v))] *)
Definition store_then_call (name : string) (v : pyval) : M pyval :=
  let* cache := Cache in
  let* key := __call__ Cache_store cache [v] [] in
  call_method cache name (py_str key).

(** [cache = Cache(); get_int(cache, cache.store(v))] *)
Definition store_then_get_int (v : pyval) : M pyval :=
  let* cache := Cache in
  let* key := __call__ Cache_store cache [v] [] in
  get_int cache (py_str key).



Definition both_utf8 (p : string * string) : Prop :=
  Bytes.valid_utf8 (fst p) = true /\ Bytes.valid_utf8 (snd p) = true.

(** ** The interpreter's limit on the text of an integer

    [str], [repr] and [int] convert an integer to or from a text of at
    most [max_str_digits] digits, and raise [ValueError] beyond it
    ([sys.get_int_max_str_digits()], 4300 unless it is changed). *)

Definition max_str_digits : Z := 4300.

(** [repr(v)] stays within the limit: an [int] of at most 4300 digits, or a
    value of another type. *)
Definition printable (v : pyval) : bool :=
  match v with
  | VInt z => Z.abs z <? 10 ^ max_str_digits
  | _ => true
  end.

(** Every value of a call can be printed: the positional ones for
    [str(args)], the ones given by keyword for the client. *)
Definition call_printable (args : list pyval) (kwargs : list (string * pyval)) : bool :=
  forallb printable args && forallb (fun kv => printable (snd kv)) kwargs.

Fixpoint digit_count (s : string) : Z :=
  match s with
  | EmptyString => 0
  | String c r => (if Bytes.is_digit c then 1 else 0) + digit_count r
  end.

(** [int(b)] stays within the limit: [b] holds at most 4300 digits. *)
Definition readable (b : string) : bool := digit_count b <=? max_str_digits.

(** ** The instrumentation of [Cache.store] as a state *)

(** The counter of [Cache.store] reads [n], its Inputs log is [ins] and its
    Outputs log is [outs]. *)
Definition tidy (w : world) (n : Z) (ins outs : list string) : Prop :=
  counter_value w "Cache.store" = Some n
  /\ log_of w (inputs_key "Cache.store") = Some ins
  /\ log_of w (outputs_key "Cache.store") = Some outs.

(** The world once a call of [Cache.store] has sent its [INCR] and the
    [RPUSH] of its input [s]. *)
Definition counted_and_logged (w : world) (n : Z) (ins : list string) (s : string) : world :=
  World (<[inputs_key "Cache.store" := RList (ins ++ [s])]>
          (<["Cache.store" := RString (Bytes.repr_int (n + 1))]> (server w)))
        (wire w ++ [INCR "Cache.store"; RPUSH (inputs_key "Cache.store") s])
        (entropy w) (stdout w).

(** One positional argument each. *)
Definition one_each (ds : list pyval) : list (list pyval * list (string * pyval)) :=
  map (fun d => ([d], [])) ds.

(** [cache = Cache()], then [cache.store(d)] for each [d], then
    [replay(cache.store)]. *)
Definition store_all_then_replay (ds : list pyval) : M unit :=
  let* cache := Cache in
  call_each Cache_store cache (one_each ds) ;;
  replay (BoundMethod cache (__qualname__ Cache_store)).


(** * Properties *)

Arguments redis_incr : simpl never.
Arguments redis_rpush : simpl never.
Arguments redis_set : simpl never.
Arguments redis_get : simpl never.
Arguments redis_exists : simpl never.
Arguments redis_lrange : simpl never.
Arguments redis_flushdb : simpl never.

(** ** Decimal numerals are read back *)

Lemma digit_char_facts (d : Z) :
  0 <= d <= 9 ->
  Bytes.is_digit (Bytes.digit_char d) = true
  /\ Bytes.code (Bytes.digit_char d) - 48 = d
  /\ Bytes.is_space (Bytes.digit_char d) = false
  /\ Ascii.eqb (Bytes.digit_char d) "-"%char = false
  /\ Ascii.eqb (Bytes.digit_char d) "+"%char = false.
Proof.
  intros Hd.
  assert (Hc : d = 0 \/ d = 1 \/ d = 2 \/ d = 3 \/ d = 4 \/ d = 5 \/ d = 6
               \/ d = 7 \/ d = 8 \/ d = 9) by lia.
  repeat (destruct Hc as [-> | Hc]; [ repeat split; reflexivity | ]).
  subst d. repeat split; reflexivity.
Qed.

Lemma digits_digit (d : Z) (r : string) (a : Z) (seen : bool) :
  0 <= d <= 9 ->
  Bytes.digits (String (Bytes.digit_char d) r) a seen = Bytes.digits r (10 * a + d) true.
Proof.
  intros Hd. destruct (digit_char_facts d Hd) as (H1 & H2 & _).
  simpl. rewrite H1, H2. reflexivity.
Qed.

Lemma digits_dec_loop (f : nat) :
  forall (n : Z) (acc : string) (a : Z) (seen : bool),
    0 <= n < 2 ^ (Z.of_nat f + 1) ->
    exists k, 0 <= k /\
      Bytes.digits (Bytes.dec_loop (S f) n acc) a seen
      = Bytes.digits acc (a * 10 ^ k + n) true.
Proof.
  induction f as [|f IH]; intros n acc a seen Hn.
  - exists 1. split; [lia|]. change (2 ^ (Z.of_nat 0 + 1)) with 2 in Hn.
    cbn [Bytes.dec_loop]. replace (n <? 10) with true by (symmetry; apply Z.ltb_lt; lia).
    rewrite Z.mod_small by lia. rewrite digits_digit by lia.
    f_equal. lia.
  - cbn [Bytes.dec_loop]. destruct (n <? 10) eqn:Hlt.
    + apply Z.ltb_lt in Hlt. exists 1. split; [lia|].
      rewrite Z.mod_small by lia. rewrite digits_digit by lia. f_equal. lia.
    + apply Z.ltb_ge in Hlt.
      assert (Hpow : 2 ^ (Z.of_nat (S f) + 1) = 2 * 2 ^ (Z.of_nat f + 1)).
      { rewrite <- Z.pow_succ_r by lia. f_equal. lia. }
      pose proof (Z.div_mod n 10 ltac:(lia)) as Hdm.
      pose proof (Z.mod_pos_bound n 10 ltac:(lia)) as Hmb.
      destruct (IH (n / 10) (String (Bytes.digit_char (n mod 10)) acc) a seen)
        as (k & Hk & Heq); [lia|].
      exists (k + 1). split; [lia|].
      cbn [Bytes.dec_loop] in Heq. rewrite Heq.
      rewrite digits_digit by lia. f_equal.
      rewrite Z.pow_add_r by lia. lia.
Qed.


(** A numeral holds no white space, so [strip] leaves it as it is. *)
Fixpoint no_space (s : string) : bool :=
  match s with
  | EmptyString => true
  | String c r => negb (Bytes.is_space c) && no_space r
  end.

Lemma lstrip_no_space (s : string) : no_space s = true -> Bytes.lstrip s = s.
Proof.
  destruct s as [|c r]; [reflexivity|]. simpl. intros H.
  apply andb_true_iff in H as [Hc _]. apply negb_true_iff in Hc.
  rewrite Hc. reflexivity.
Qed.

Lemma rstrip_no_space (s : string) : no_space s = true -> Bytes.rstrip s = s.
Proof.
  induction s as [|c r IH]; [reflexivity|]. simpl. intros H.
  apply andb_true_iff in H as [Hc Hr]. apply negb_true_iff in Hc.
  rewrite (IH Hr). destruct r; [rewrite Hc|]; reflexivity.
Qed.

Lemma strip_no_space (s : string) : no_space s = true -> Bytes.strip s = s.
Proof.
  intros H. unfold Bytes.strip. rewrite lstrip_no_space by exact H.
  apply rstrip_no_space, H.
Qed.

Lemma dec_loop_no_space (f : nat) :
  forall n acc, 0 <= n -> no_space acc = true ->
                no_space (Bytes.dec_loop f n acc) = true.
Proof.
  induction f as [|f IH]; intros n acc Hn Hacc; [exact Hacc|].
  cbn [Bytes.dec_loop].
  pose proof (Z.mod_pos_bound n 10 ltac:(lia)) as Hmb.
  destruct (digit_char_facts (n mod 10) ltac:(lia)) as (_ & _ & Hs & _).
  assert (Hacc' : no_space (String (Bytes.digit_char (n mod 10)) acc) = true).
  { simpl. rewrite Hs, Hacc. reflexivity. }
  destruct (n <? 10); [exact Hacc'|].
  apply IH; [apply Z.div_pos; lia | exact Hacc'].
Qed.

(** The first character of a numeral is a digit. *)
Lemma dec_loop_head (f : nat) :
  forall n acc, 0 <= n ->
    (exists d r, 0 <= d <= 9 /\ acc = String (Bytes.digit_char d) r) \/ acc = "" ->
    exists d r, 0 <= d <= 9 /\ Bytes.dec_loop (S f) n acc = String (Bytes.digit_char d) r.
Proof.
  induction f as [|f IH]; intros n acc Hn Hacc;
    pose proof (Z.mod_pos_bound n 10 ltac:(lia)) as Hmb.
  - cbn [Bytes.dec_loop].
    destruct (n <? 10); exists (n mod 10), acc; (split; [lia | reflexivity]).
  - change (Bytes.dec_loop (S (S f)) n acc)
      with (let acc' := String (Bytes.digit_char (n mod 10)) acc in
            if n <? 10 then acc' else Bytes.dec_loop (S f) (n / 10) acc').
    cbv zeta. destruct (n <? 10).
    + exists (n mod 10), acc. split; [lia | reflexivity].
    + apply IH; [apply Z.div_pos; lia |].
      left. exists (n mod 10), acc. split; [lia | reflexivity].
Qed.

Lemma dec_nat_read (n : Z) :
  0 <= n ->
  no_space (Bytes.dec_nat n) = true
  /\ Bytes.digits (Bytes.dec_nat n) 0 false = Some n
  /\ exists d r, 0 <= d <= 9 /\ Bytes.dec_nat n = String (Bytes.digit_char d) r.
Proof.
  intros Hn. unfold Bytes.dec_nat. split; [|split].
  - apply dec_loop_no_space; [exact Hn | reflexivity].
  - destruct (digits_dec_loop (Z.to_nat (Z.log2 n)) n "" 0 false) as (k & _ & Hk).
    + rewrite Z2Nat.id by apply Z.log2_nonneg.
      destruct (Z.eq_dec n 0) as [-> | Hne]; [split; [lia | reflexivity]|].
      pose proof (Z.log2_spec n ltac:(lia)) as Hl.
      replace (Z.log2 n + 1) with (Z.succ (Z.log2 n)) by lia. lia.
    + rewrite Hk. simpl. f_equal.
  - apply dec_loop_head; [exact Hn | right; reflexivity].
Qed.

Lemma parse_int_repr_int (z : Z) : Bytes.parse_int (Bytes.repr_int z) = Some z.
Proof.
  unfold Bytes.repr_int, Bytes.parse_int. destruct (z <? 0) eqn:Hneg.
  - apply Z.ltb_lt in Hneg.
    destruct (dec_nat_read (- z) ltac:(lia)) as (Hns & Hd & _).
    rewrite strip_no_space by (simpl; rewrite Hns; reflexivity).
    simpl. rewrite Hd. simpl. f_equal. lia.
  - apply Z.ltb_ge in Hneg.
    destruct (dec_nat_read z Hneg) as (Hns & Hd & (d & r & Hdr & Heq)).
    rewrite strip_no_space by exact Hns.
    rewrite Heq in *. destruct (digit_char_facts d Hdr) as (_ & _ & _ & Hm & Hp).
    rewrite Hm, Hp. exact Hd.
Qed.

(** The canonical form of a 64-bit integer is what the server reads. *)
Lemma string2ll_repr_int (n : Z) :
  int64_min <= n <= int64_max -> string2ll (Bytes.repr_int n) = Some n.
Proof.
  intros [Hlo Hhi]. unfold string2ll. rewrite parse_int_repr_int.
  rewrite String.eqb_refl.
  replace (int64_min <=? n) with true by (symmetry; apply Z.leb_le; exact Hlo).
  replace (n <=? int64_max) with true by (symmetry; apply Z.leb_le; exact Hhi).
  reflexivity.
Qed.

Lemma string2ll_canonical (b : string) (n : Z) :
  string2ll b = Some n ->
  b = Bytes.repr_int n /\ Bytes.parse_int b = Some n /\ int64_min <= n <= int64_max.
Proof.
  unfold string2ll. destruct (Bytes.parse_int b) as [m|]; [|discriminate].
  destruct (String.eqb (Bytes.repr_int m) b) eqn:He; [|discriminate].
  destruct (int64_min <=? m) eqn:Hlo; [|discriminate].
  destruct (m <=? int64_max) eqn:Hhi; [|discriminate].
  simpl. intros [= <-]. apply String.eqb_eq in He.
  apply Z.leb_le in Hlo. apply Z.leb_le in Hhi. auto.
Qed.


(** ** The client, command by command *)

Lemma append_inj_l (s a b : string) : s +:+ a = s +:+ b -> a = b.
Proof. induction s as [|c s IH]; simpl; [auto|]. intros [= H]. auto. Qed.

Lemma length_append (s t : string) :
  String.length (s +:+ t) = (String.length s + String.length t)%nat.
Proof. induction s as [|c s IH]; simpl; [reflexivity|]. rewrite IH. reflexivity. Qed.

Lemma inputs_outputs_differ (name : string) : inputs_key name <> outputs_key name.
Proof. unfold inputs_key, outputs_key. intros H. apply append_inj_l in H. discriminate. Qed.

Lemma inputs_key_differs (name : string) : inputs_key name <> name.
Proof.
  intros H. apply (f_equal String.length) in H. unfold inputs_key in H.
  rewrite length_append in H. simpl in H. lia.
Qed.

Lemma outputs_key_differs (name : string) : outputs_key name <> name.
Proof.
  intros H. apply (f_equal String.length) in H. unfold outputs_key in H.
  rewrite length_append in H. simpl in H. lia.
Qed.

Lemma redis_incr_ok (key : string) (w : world) (n : Z) :
  counter_value w key = Some n -> n < int64_max ->
  redis_incr key w
  = (Ok (n + 1), written w [INCR key] key (RString (Bytes.repr_int (n + 1)))).
Proof.
  unfold counter_value, redis_incr, bind, send, lookup_key, write_key, ret, written.
  simpl. intros Hc Hn. destruct (server w !! key) as [[b|l]|]; [| discriminate |].
  - rewrite Hc. replace (n <? int64_max) with true by (symmetry; apply Z.ltb_lt; exact Hn).
    reflexivity.
  - injection Hc as <-. reflexivity.
Qed.

Lemma counter_value_written (w : world) (cs : list command) (key : string) (n : Z) :
  int64_min <= n <= int64_max ->
  counter_value (written w cs key (RString (Bytes.repr_int n))) key = Some n.
Proof.
  intros Hn. unfold counter_value, written. simpl.
  rewrite lookup_insert_eq. apply string2ll_repr_int, Hn.
Qed.

Lemma redis_incr_other (key k : string) (w : world) :
  k <> key -> server (snd (redis_incr key w)) !! k = server w !! k.
Proof.
  intros Hk. unfold redis_incr, bind, send, lookup_key, write_key, ret, raise. simpl.
  destruct (server w !! key) as [[b|l]|]; simpl.
  - destruct (string2ll b) as [n|]; [|reflexivity].
    destruct (n <? int64_max); simpl; [|reflexivity].
    apply lookup_insert_ne. congruence.
  - reflexivity.
  - apply lookup_insert_ne. congruence.
Qed.

Lemma redis_rpush_ok (key : string) (v : pyval) (b : string) (w : world) (l : list string) :
  encode v = Some b -> log_of w key = Some l ->
  redis_rpush key v w
  = (Ok (Z.of_nat (length l) + 1), written w [RPUSH key b] key (RList (l ++ [b]))).
Proof.
  unfold log_of, redis_rpush, encoded, bind, send, lookup_key, write_key, ret, written.
  intros -> Hl. simpl. destruct (server w !! key) as [[s|l']|]; [discriminate | |].
  - injection Hl as ->. reflexivity.
  - injection Hl as <-. reflexivity.
Qed.

Lemma log_of_written (w : world) (cs : list command) (key : string) (l : list string) :
  log_of (written w cs key (RList l)) key = Some l.
Proof. unfold log_of, written. simpl. rewrite lookup_insert_eq. reflexivity. Qed.

Lemma server_written_other (w : world) (cs : list command) (key k : string) (v : rval) :
  k <> key -> server (written w cs key v) !! k = server w !! k.
Proof. intros Hk. unfold written. simpl. apply lookup_insert_ne. congruence. Qed.

Lemma redis_rpush_other (key k : string) (v : pyval) (w : world) :
  k <> key -> server (snd (redis_rpush key v w)) !! k = server w !! k.
Proof.
  intros Hk. unfold redis_rpush, encoded, bind, send, lookup_key, write_key, ret, raise.
  destruct (encode v) as [b|]; simpl; [|reflexivity].
  destruct (server w !! key) as [[s|l]|]; simpl;
    [reflexivity | apply lookup_insert_ne; congruence | apply lookup_insert_ne; congruence].
Qed.

Lemma redis_set_ok (key : string) (v : pyval) (b : string) (w : world) :
  encode v = Some b ->
  redis_set key v w = (Ok tt, written w [SET key b] key (RString b)).
Proof.
  unfold redis_set, encoded, bind, send, write_key, ret, written.
  intros ->. reflexivity.
Qed.

Lemma redis_set_other (key k : string) (v : pyval) (w : world) :
  k <> key -> server (snd (redis_set key v w)) !! k = server w !! k.
Proof.
  intros Hk. unfold redis_set, encoded, bind, send, write_key, ret, raise.
  destruct (encode v) as [b|]; simpl; [|reflexivity].
  apply lookup_insert_ne. congruence.
Qed.

(** Reading commands leave the server as it is. *)
Lemma redis_get_server (key : string) (w : world) :
  server (snd (redis_get key w)) = server w.
Proof.
  unfold redis_get, bind, send, lookup_key, ret, raise. simpl.
  destruct (server w !! key) as [[b|l]|]; reflexivity.
Qed.

Lemma redis_exists_server (key : string) (w : world) :
  server (snd (redis_exists key w)) = server w.
Proof.
  unfold redis_exists, bind, send, lookup_key, ret. simpl.
  destruct (server w !! key); reflexivity.
Qed.

Lemma redis_lrange_server (key : string) (a b : Z) (w : world) :
  server (snd (redis_lrange key a b w)) = server w.
Proof.
  unfold redis_lrange, bind, send, lookup_key, ret, raise. simpl.
  destruct (server w !! key) as [[s|l]|]; reflexivity.
Qed.

Lemma lrange_slice_all (l : list string) : lrange_slice l 0 (-1) = l.
Proof.
  unfold lrange_slice. destruct l as [|x l]; [reflexivity|].
  set (n := Z.of_nat (length (x :: l))).
  assert (Hn : 1 <= n) by (subst n; simpl length; lia).
  change (0 <? 0) with false. change (-1 <? 0) with true. cbv iota.
  replace (n + -1 <? 0) with false by (symmetry; apply Z.ltb_ge; lia).
  replace (n <=? 0) with false by (symmetry; apply Z.leb_gt; lia).
  cbv [orb]. cbv iota.
  replace (Z.min (n + -1) (n - 1) - 0 + 1) with n by lia.
  subst n. rewrite Nat2Z.id. change (Z.to_nat 0) with 0%nat.
  rewrite skipn_O. apply firstn_all.
Qed.

Lemma redis_lrange_all (key : string) (w : world) (l : list string) :
  log_of w key = Some l ->
  redis_lrange key 0 (-1) w
  = (Ok (map VBytes l),
     World (server w) (wire w ++ [LRANGE key 0 (-1)]) (entropy w) (stdout w)).
Proof.
  unfold log_of, redis_lrange, bind, send, lookup_key, ret. simpl. intros Hl.
  destruct (server w !! key) as [[s|l']|]; [discriminate | |].
  - injection Hl as ->. rewrite lrange_slice_all. reflexivity.
  - injection Hl as <-. reflexivity.
Qed.


(** ** What the decorators write *)

Lemma self_redis_client (self : instance) (w : world) :
  _redis self = Some Redis -> self_redis self w = (Ok Redis, w).
Proof. unfold self_redis. intros ->. reflexivity. Qed.

Lemma count_calls_leaves (method : pymethod) (k : string) :
  leaves method k -> k <> __qualname__ method -> leaves (count_calls method) k.
Proof.
  intros Hm Hk self args kwargs w. unfold count_calls. cbn [__call__].
  unfold bind, self_redis. destruct (_redis self) as [[|v]|]; cbn.
  - pose proof (redis_incr_other (__qualname__ method) k w Hk) as Hi.
    destruct (redis_incr (__qualname__ method) w) as [[z|e] w1]; cbn in *.
    + rewrite Hm. exact Hi.
    + exact Hi.
  - apply Hm.
  - reflexivity.
Qed.

Lemma call_history_leaves (method : pymethod) (k : string) :
  leaves method k ->
  k <> inputs_key (__qualname__ method) -> k <> outputs_key (__qualname__ method) ->
  leaves (call_history method) k.
Proof.
  intros Hm Hin Hout self args kwargs w. unfold call_history. cbn [__call__].
  unfold bind, self_redis. destruct (_redis self) as [[|v]|]; cbn.
  - pose proof (redis_rpush_other _ k (VStr (str_args args)) w Hin) as H1.
    fold (inputs_key (__qualname__ method)).
    destruct (redis_rpush (inputs_key (__qualname__ method)) (VStr (str_args args)) w)
      as [[z|e] w1]; cbn in *; [|exact H1].
    pose proof (Hm self args kwargs w1) as H2.
    destruct (__call__ method self args kwargs w1) as [[out|e] w2]; cbn in *;
      [|congruence].
    pose proof (redis_rpush_other _ k out w2 Hout) as H3.
    fold (outputs_key (__qualname__ method)).
    destruct (redis_rpush (outputs_key (__qualname__ method)) out w2)
      as [[z'|e] w3]; cbn in *; congruence.
  - pose proof (Hm self args kwargs w) as H2.
    destruct (__call__ method self args kwargs w) as [[out|e] w2]; cbn in *; exact H2.
  - reflexivity.
Qed.

Lemma store_leaves (k : string) :
  (forall n, String.length (uuid4 n) = 36%nat) ->
  String.length k <> 36%nat -> leaves store k.
Proof.
  intros Hu Hk self args kwargs w. unfold store. cbn [__call__].
  unfold bind. destruct (bind_data args kwargs w) as [[data|e] w1] eqn:Hb.
  - assert (w1 = w) as ->.
    { unfold bind_data, ret, raise in Hb.
      destruct args as [|a [|a' args]], kwargs as [|[n v] [|p kwargs]];
        try destruct (String.eqb n "data"); congruence. }
    unfold fresh_uuid, self_redis. cbn.
    destruct (_redis self) as [[|v]|]; cbn; [|reflexivity|reflexivity].
    set (w2 := World (server w) (wire w) (S (entropy w)) (stdout w)).
    assert (Hne : k <> uuid4 (entropy w)) by (intros ->; apply Hk, Hu).
    pose proof (redis_set_other (uuid4 (entropy w)) k data w2 Hne) as Hs.
    destruct (redis_set (uuid4 (entropy w)) data w2) as [[u|e] w3]; cbn in *; exact Hs.
  - assert (w1 = w) as ->.
    { unfold bind_data, ret, raise in Hb.
      destruct args as [|a [|a' args]], kwargs as [|[n v] [|p kwargs]];
        try destruct (String.eqb n "data"); congruence. }
    reflexivity.
Qed.


(** ** The decorators on an object without a client *)

(** C10. On an instance whose [_redis] is not a [redis.Redis] client, a call
    through [count_calls], through [call_history], or through both is the
    call of the underlying operation on the same arguments: same result or
    same exception, same world, hence no command sent and no key written
    by the decorators. *)
Theorem decorators_skip_foreign_handle
    (method : pymethod) (self : instance) (v : pyval)
    (args : list pyval) (kwargs : list (string * pyval)) (w : world) :
  _redis self = Some (Other v) ->
  __call__ (count_calls method) self args kwargs w
  = __call__ method self args kwargs w
  /\ __call__ (call_history method) self args kwargs w
     = __call__ method self args kwargs w
  /\ __call__ (count_calls (call_history method)) self args kwargs w
     = __call__ method self args kwargs w.
Proof.
  intros Hself.
  assert (Hc : forall m, __call__ (count_calls m) self args kwargs w
                         = __call__ m self args kwargs w).
  { intros m. unfold count_calls. cbn [__call__].
    unfold bind, self_redis. rewrite Hself. reflexivity. }
  assert (Hh : __call__ (call_history method) self args kwargs w
               = __call__ method self args kwargs w).
  { unfold call_history. cbn [__call__].
    unfold bind, self_redis. rewrite Hself. cbn.
    destruct (__call__ method self args kwargs w) as [[out|e] w']; reflexivity. }
  split; [apply Hc | split; [exact Hh |]].
  rewrite Hc. exact Hh.
Qed.

(** ** Counting *)

Lemma count_calls_step (method : pymethod) (self : instance)
    (args : list pyval) (kwargs : list (string * pyval)) (w : world) (n : Z) :
  _redis self = Some Redis ->
  counter_value w (__qualname__ method) = Some n -> n < int64_max ->
  __call__ (count_calls method) self args kwargs w
  = __call__ method self args kwargs
      (written w [INCR (__qualname__ method)] (__qualname__ method)
               (RString (Bytes.repr_int (n + 1)))).
Proof.
  intros Hself Hc Hn. unfold count_calls. cbn [__call__].
  unfold bind at 1. rewrite (self_redis_client self w Hself).
  cbn [isinstance_Redis]. unfold bind.
  rewrite (redis_incr_ok _ w n Hc Hn). reflexivity.
Qed.

Lemma count_calls_many (method : pymethod) (self : instance) :
  _redis self = Some Redis ->
  leaves method (__qualname__ method) ->
  forall calls w n,
    counter_value w (__qualname__ method) = Some n ->
    n + Z.of_nat (length calls) <= int64_max ->
    counter_value (snd (attempt_each (count_calls method) self calls w))
                  (__qualname__ method)
    = Some (n + Z.of_nat (length calls)).
Proof.
  intros Hself Hm calls. induction calls as [|[args kwargs] calls IH]; intros w n Hc Hn.
  - cbn. rewrite Z.add_0_r. exact Hc.
  - cbn [attempt_each]. unfold bind, attempt. cbn [length] in *.
    rewrite (count_calls_step method self args kwargs w n Hself Hc) by lia.
    set (w1 := written w _ _ _).
    assert (Hlo : int64_min <= n).
    { unfold counter_value in Hc.
      destruct (server w !! __qualname__ method) as [[b|l]|]; [| discriminate |].
      - apply string2ll_canonical in Hc. lia.
      - injection Hc as <-. unfold int64_min. lia. }
    rewrite (IH _ (n + 1)); [f_equal; lia | | lia].
    unfold counter_value. rewrite Hm.
    apply (counter_value_written w). unfold int64_min in *. lia.
Qed.

Lemma redis_incr_wire (key : string) (w : world) :
  wire (snd (redis_incr key w)) = wire w ++ [INCR key].
Proof.
  unfold redis_incr, bind, send, lookup_key, write_key, ret, raise. cbn [server].
  destruct (server w !! key) as [[b|l]|]; try reflexivity.
  destruct (string2ll b) as [n|]; [|reflexivity].
  destruct (n <? int64_max); reflexivity.
Qed.

Lemma count_calls_unfold (method : pymethod) (self : instance)
    (args : list pyval) (kwargs : list (string * pyval)) (w : world) :
  _redis self = Some Redis ->
  __call__ (count_calls method) self args kwargs w
  = match redis_incr (__qualname__ method) w with
    | (Ok _, w1) => __call__ method self args kwargs w1
    | (Raise e, w1) => (Raise e, w1)
    end.
Proof.
  intros Hself. unfold count_calls. cbn [__call__].
  unfold bind at 1. rewrite (self_redis_client self w Hself).
  cbn [isinstance_Redis]. unfold bind.
  destruct (redis_incr (__qualname__ method) w) as [[z|e] w1]; reflexivity.
Qed.

(** C4. A call of a [count_calls]-wrapped operation on an object with a
    client first sends one [INCR] of the key named after the operation,
    and only if the server answers goes on with the operation, whose result
    or exception is that of the call.  When the counter reads [n] (below
    the server's 64-bit bound) the operation runs in the world where it
    reads [n + 1], and nothing the operation does afterwards undoes that.
    Hence, from an unset counter and with the operation not writing the
    key, the counter reads [N] after [N] calls, whether they return or
    raise. *)
Theorem count_calls_counter (method : pymethod) (self : instance) :
  _redis self = Some Redis ->
  (forall args kwargs w,
      __call__ (count_calls method) self args kwargs w
      = match redis_incr (__qualname__ method) w with
        | (Ok _, w1) => __call__ method self args kwargs w1
        | (Raise e, w1) => (Raise e, w1)
        end
      /\ wire (snd (redis_incr (__qualname__ method) w))
         = wire w ++ [INCR (__qualname__ method)])
  /\ (forall args kwargs w n,
      counter_value w (__qualname__ method) = Some n -> n < int64_max ->
      __call__ (count_calls method) self args kwargs w
      = __call__ method self args kwargs
          (World (<[__qualname__ method := RString (Bytes.repr_int (n + 1))]> (server w))
                 (wire w ++ [INCR (__qualname__ method)]) (entropy w) (stdout w)))
  /\ (forall calls w,
         leaves method (__qualname__ method) ->
         server w !! __qualname__ method = None ->
         Z.of_nat (length calls) <= int64_max ->
         counter_value (snd (attempt_each (count_calls method) self calls w))
                       (__qualname__ method)
         = Some (Z.of_nat (length calls))).
Proof.
  intros Hself. split; [|split].
  - intros args kwargs w. split; [apply count_calls_unfold, Hself | apply redis_incr_wire].
  - intros args kwargs w n Hc Hn. apply count_calls_step; assumption.
  - intros calls w Hm Hfresh Hn.
    apply (count_calls_many method self Hself Hm calls w 0); [|lia].
    unfold counter_value. rewrite Hfresh. reflexivity.
Qed.

(** ** The history of calls *)

Lemma log_of_ext (w w' : world) (k : string) :
  server w' !! k = server w !! k -> log_of w' k = log_of w k.
Proof. unfold log_of. intros ->. reflexivity. Qed.

Lemma redis_rpush_refused (key : string) (v : pyval) (w : world) :
  encode v = None -> redis_rpush key v w = (Raise DataError, w).
Proof. unfold redis_rpush, encoded, bind, raise. intros ->. reflexivity. Qed.

(** The three ways a call through [call_history] ends, on an object with a
    client and an Inputs log [ins]: [w1] is the world in which the wrapped
    operation runs. *)
Section History_step.

Variables (method : pymethod) (self : instance).
Variables (args : list pyval) (kwargs : list (string * pyval)).
Variables (w : world) (ins : list string).
Hypothesis Hself : _redis self = Some Redis.
Hypothesis Hins : log_of w (inputs_key (__qualname__ method)) = Some ins.

Let w1 : world :=
  written w [RPUSH (inputs_key (__qualname__ method)) (str_args args)]
          (inputs_key (__qualname__ method)) (RList (ins ++ [str_args args])).

Lemma call_history_unfold :
  __call__ (call_history method) self args kwargs w
  = match __call__ method self args kwargs w1 with
    | (Ok output, w2) =>
        match redis_rpush (outputs_key (__qualname__ method)) output w2 with
        | (Ok _, w3) => (Ok output, w3)
        | (Raise e, w3) => (Raise e, w3)
        end
    | (Raise e, w2) => (Raise e, w2)
    end.
Proof.
  unfold call_history. cbn [__call__].
  unfold bind at 1. rewrite (self_redis_client self w Hself). cbn [isinstance_Redis].
  unfold bind at 1. unfold bind at 1.
  fold (inputs_key (__qualname__ method)).
  rewrite (redis_rpush_ok _ (VStr (str_args args)) (str_args args) w ins eq_refl Hins).
  fold w1. cbn [ret]. unfold bind at 1.
  destruct (__call__ method self args kwargs w1) as [[output|e] w2]; [|reflexivity].
  unfold bind at 1. rewrite (self_redis_client self w2 Hself). cbn [isinstance_Redis].
  unfold bind. fold (outputs_key (__qualname__ method)).
  destruct (redis_rpush (outputs_key (__qualname__ method)) output w2) as [[z|e] w3];
    reflexivity.
Qed.

Lemma call_history_raises (e : exn) (w2 : world) :
  __call__ method self args kwargs w1 = (Raise e, w2) ->
  __call__ (call_history method) self args kwargs w = (Raise e, w2).
Proof. intros H. rewrite call_history_unfold, H. reflexivity. Qed.

Lemma call_history_returns (output : pyval) (b : string) (w2 : world) (outs : list string) :
  __call__ method self args kwargs w1 = (Ok output, w2) ->
  encode output = Some b ->
  log_of w2 (outputs_key (__qualname__ method)) = Some outs ->
  __call__ (call_history method) self args kwargs w
  = (Ok output,
     written w2 [RPUSH (outputs_key (__qualname__ method)) b]
             (outputs_key (__qualname__ method)) (RList (outs ++ [b]))).
Proof.
  intros H Hb Houts. rewrite call_history_unfold, H.
  rewrite (redis_rpush_ok _ output b w2 outs Hb Houts). reflexivity.
Qed.

Lemma call_history_inversion (output : pyval) (w' : world) (outs : list string) :
  leaves method (inputs_key (__qualname__ method)) ->
  leaves method (outputs_key (__qualname__ method)) ->
  log_of w (outputs_key (__qualname__ method)) = Some outs ->
  __call__ (call_history method) self args kwargs w = (Ok output, w') ->
  exists b, encode output = Some b
            /\ log_of w' (inputs_key (__qualname__ method)) = Some (ins ++ [str_args args])
            /\ log_of w' (outputs_key (__qualname__ method)) = Some (outs ++ [b]).
Proof.
  intros Lin Lout Houts Hcall. rewrite call_history_unfold in Hcall.
  pose proof (Lin self args kwargs w1) as Hin2.
  pose proof (Lout self args kwargs w1) as Hout2.
  destruct (__call__ method self args kwargs w1) as [[out|e] w2]; [|discriminate].
  cbn [snd] in Hin2, Hout2.
  assert (Houts2 : log_of w2 (outputs_key (__qualname__ method)) = Some outs).
  { rewrite <- Houts. apply log_of_ext. rewrite Hout2. subst w1.
    apply server_written_other. intros H. symmetry in H.
    exact (inputs_outputs_differ _ H). }
  destruct (encode out) as [b|] eqn:Hb.
  - rewrite (redis_rpush_ok _ out b w2 outs Hb Houts2) in Hcall.
    injection Hcall as <- <-. exists b. split; [exact Hb | split].
    + rewrite (log_of_ext w2).
      * rewrite (log_of_ext w1) by exact Hin2. subst w1. apply log_of_written.
      * apply server_written_other, inputs_outputs_differ.
    + apply log_of_written.
  - rewrite (redis_rpush_refused _ out w2 Hb) in Hcall. discriminate.
Qed.

End History_step.


Lemma decorated_inversion (counted : bool) (method : pymethod) (self : instance)
    (args : list pyval) (kwargs : list (string * pyval))
    (w w' : world) (ins outs : list string) (output : pyval) :
  _redis self = Some Redis ->
  leaves method (inputs_key (__qualname__ method)) ->
  leaves method (outputs_key (__qualname__ method)) ->
  log_of w (inputs_key (__qualname__ method)) = Some ins ->
  log_of w (outputs_key (__qualname__ method)) = Some outs ->
  __call__ (decorated counted method) self args kwargs w = (Ok output, w') ->
  exists b, encode output = Some b
            /\ log_of w' (inputs_key (__qualname__ method)) = Some (ins ++ [str_args args])
            /\ log_of w' (outputs_key (__qualname__ method)) = Some (outs ++ [b]).
Proof.
  intros Hself Lin Lout Hins Houts Hcall. destruct counted; cbn [decorated] in Hcall.
  - rewrite (count_calls_unfold _ self args kwargs w Hself) in Hcall.
    cbn [__qualname__ call_history] in Hcall.
    pose proof (redis_incr_other (__qualname__ method) (inputs_key (__qualname__ method)) w
                  (inputs_key_differs _)) as Hi.
    pose proof (redis_incr_other (__qualname__ method) (outputs_key (__qualname__ method)) w
                  (outputs_key_differs _)) as Ho.
    destruct (redis_incr (__qualname__ method) w) as [[z|e] w1]; [|discriminate].
    cbn [snd] in Hi, Ho.
    apply (call_history_inversion method self args kwargs w1 ins Hself
             ltac:(rewrite <- Hins; apply log_of_ext, Hi) output w' outs Lin Lout
             ltac:(rewrite <- Houts; apply log_of_ext, Ho) Hcall).
  - apply (call_history_inversion method self args kwargs w ins Hself Hins
             output w' outs Lin Lout Houts Hcall).
Qed.

Lemma call_each_length (m : pymethod) (self : instance) :
  forall calls w rets w',
    call_each m self calls w = (Ok rets, w') -> length rets = length calls.
Proof.
  induction calls as [|[a k] calls IH]; intros w rets w' Hrun.
  - cbn in Hrun. injection Hrun as <- _. reflexivity.
  - cbn [call_each] in Hrun. unfold bind at 1 in Hrun.
    destruct (__call__ m self a k w) as [[r|e] w1]; [|discriminate].
    unfold bind at 1 in Hrun.
    destruct (call_each m self calls w1) as [[rs|e] w2] eqn:Hrest; [|discriminate].
    injection Hrun as <- _. cbn. f_equal. exact (IH _ _ _ Hrest).
Qed.

Lemma call_each_logs (counted : bool) (method : pymethod) (self : instance) :
  _redis self = Some Redis ->
  leaves method (inputs_key (__qualname__ method)) ->
  leaves method (outputs_key (__qualname__ method)) ->
  forall calls w rets w' ins outs,
    log_of w (inputs_key (__qualname__ method)) = Some ins ->
    log_of w (outputs_key (__qualname__ method)) = Some outs ->
    call_each (decorated counted method) self calls w = (Ok rets, w') ->
    exists new,
      map encode rets = map Some new
      /\ log_of w' (inputs_key (__qualname__ method))
         = Some (ins ++ map (fun c => str_args (fst c)) calls)
      /\ log_of w' (outputs_key (__qualname__ method)) = Some (outs ++ new).
Proof.
  intros Hself Lin Lout calls.
  induction calls as [|[args kwargs] calls IH]; intros w rets w' ins outs Hins Houts Hrun.
  - cbn in Hrun. injection Hrun as <- <-. exists []. cbn.
    rewrite !app_nil_r. auto.
  - cbn [call_each] in Hrun. unfold bind at 1 in Hrun.
    destruct (__call__ (decorated counted method) self args kwargs w)
      as [[r|e] w1] eqn:Hcall; [|discriminate].
    unfold bind at 1 in Hrun.
    destruct (call_each (decorated counted method) self calls w1)
      as [[rs|e] w2] eqn:Hrest; [|discriminate].
    injection Hrun as <- <-.
    destruct (decorated_inversion counted method self args kwargs w w1 ins outs r
                Hself Lin Lout Hins Houts Hcall) as (b & Hb & Hin1 & Hout1).
    destruct (IH w1 rs w2 _ _ Hin1 Hout1 Hrest) as (new & Hnew & Hin2 & Hout2).
    exists (b :: new). cbn [map fst]. rewrite Hb, Hnew.
    rewrite Hin2, Hout2, <- !app_assoc. auto.
Qed.

(** C1. After a sequence of calls that all returned, of an operation under
    [call_history] (alone, or with [count_calls] on top as [Cache.store]
    has it), starting with both logs unset, on an object with a client and
    for an operation that does not itself write the logs: the Inputs log
    and the Outputs log have as many entries as there were calls, entry [i]
    of Inputs is [str(args)] of call [i], that is the [repr] of each
    positional argument in order, separated by a comma and a space, between
    parentheses, with a comma before the closing one when there is one
    argument; and entry [i] of Outputs is the value call [i] returned, as
    the client encodes it. *)
Theorem call_history_aligned (counted : bool) (method : pymethod) (self : instance)
    (calls : list (list pyval * list (string * pyval)))
    (w w' : world) (rets : list pyval) :
  _redis self = Some Redis ->
  leaves method (inputs_key (__qualname__ method)) ->
  leaves method (outputs_key (__qualname__ method)) ->
  server w !! inputs_key (__qualname__ method) = None ->
  server w !! outputs_key (__qualname__ method) = None ->
  call_each (decorated counted method) self calls w = (Ok rets, w') ->
  exists ins outs,
    log_of w' (inputs_key (__qualname__ method)) = Some ins
    /\ log_of w' (outputs_key (__qualname__ method)) = Some outs
    /\ length ins = length calls
    /\ length outs = length calls
    /\ length rets = length calls
    /\ forall (i : nat) args kwargs r,
         calls !! i = Some (args, kwargs) -> rets !! i = Some r ->
         ins !! i = Some (str_args args)
         /\ str_args args
            = "(" +:+ join_reprs args
              +:+ match args with [_] => ",)" | _ => ")" end
         /\ outs !! i = encode r.
Proof.
  intros Hself Lin Lout Hin Hout Hrun.
  destruct (call_each_logs counted method self Hself Lin Lout calls w rets w' [] [])
    as (outs & Henc & Hins & Houts); try exact Hrun.
  { unfold log_of. rewrite Hin. reflexivity. }
  { unfold log_of. rewrite Hout. reflexivity. }
  cbn [app] in Hins, Houts.
  exists (map (fun c => str_args (fst c)) calls), outs.
  assert (Hlen : length rets = length outs).
  { rewrite <- (length_map encode rets), Henc. apply length_map. }
  pose proof (call_each_length _ self calls w rets w' Hrun) as Hn.
  repeat split; try assumption.
  - apply length_map.
  - congruence.
  - rewrite list_lookup_fmap, H. reflexivity.
  - destruct args as [|a [|a' args]]; reflexivity.
  - assert (Hi : map encode rets !! i = map Some outs !! i) by (rewrite Henc; reflexivity).
    rewrite !list_lookup_fmap, H0 in Hi. cbn in Hi.
    destruct (outs !! i) as [b|]; cbn in Hi; congruence.
Qed.

(** C5. When the wrapped operation raises, in the world where the input of
    this call is already the last entry of the Inputs log, the call through
    [call_history] raises the same exception and leaves the world as the
    operation left it: nothing is appended to the Outputs log, which is
    then shorter than the Inputs log if they were of equal length. *)
Theorem call_history_failure (method : pymethod) (self : instance)
    (args : list pyval) (kwargs : list (string * pyval))
    (w w2 : world) (ins outs : list string) (e : exn) :
  _redis self = Some Redis ->
  log_of w (inputs_key (__qualname__ method)) = Some ins ->
  log_of w (outputs_key (__qualname__ method)) = Some outs ->
  __call__ method self args kwargs
    (World (<[inputs_key (__qualname__ method) := RList (ins ++ [str_args args])]> (server w))
           (wire w ++ [RPUSH (inputs_key (__qualname__ method)) (str_args args)])
           (entropy w) (stdout w))
  = (Raise e, w2) ->
  __call__ (call_history method) self args kwargs w = (Raise e, w2)
  /\ (leaves method (inputs_key (__qualname__ method)) ->
      leaves method (outputs_key (__qualname__ method)) ->
      log_of w2 (inputs_key (__qualname__ method)) = Some (ins ++ [str_args args])
      /\ log_of w2 (outputs_key (__qualname__ method)) = Some outs
      /\ (length ins = length outs ->
          (length outs < length (ins ++ [str_args args]))%nat)).
Proof.
  intros Hself Hins Houts Hraise. split.
  - apply (call_history_raises method self args kwargs w ins Hself Hins e w2 Hraise).
  - intros Lin Lout. set (w1 := World _ _ _ _) in Hraise.
    pose proof (Lin self args kwargs w1) as H1.
    pose proof (Lout self args kwargs w1) as H2.
    rewrite Hraise in H1, H2. cbn [snd] in H1, H2.
    split; [|split].
    + rewrite (log_of_ext w1 w2 _ H1). unfold log_of. subst w1. cbn [server].
      rewrite lookup_insert_eq. reflexivity.
    + rewrite (log_of_ext w1 w2 _ H2). rewrite <- Houts. apply log_of_ext.
      subst w1. cbn [server]. apply lookup_insert_ne, inputs_outputs_differ.
    + intros Hlen. rewrite length_app. cbn. lia.
Qed.


(** ** The facade *)

Section Facade.

Hypothesis uuid4_length : forall n, String.length (uuid4 n) = 36%nat.

Lemma uuid4_not_a_log (n : nat) :
  uuid4 n <> "Cache.store"
  /\ uuid4 n <> inputs_key "Cache.store"
  /\ uuid4 n <> outputs_key "Cache.store".
Proof.
  repeat split; intros H; apply (f_equal String.length) in H;
    rewrite uuid4_length in H; discriminate H.
Qed.

Lemma store_run (self : instance) (data : pyval) (b : string) (w : world) :
  _redis self = Some Redis -> encode data = Some b ->
  __call__ store self [data] [] w
  = (Ok (VStr (uuid4 (entropy w))),
     World (<[uuid4 (entropy w) := RString b]> (server w))
           (wire w ++ [SET (uuid4 (entropy w)) b]) (S (entropy w)) (stdout w)).
Proof.
  intros Hself Hb. unfold store. cbn [__call__ bind_data].
  unfold bind, fresh_uuid, self_redis. rewrite Hself. unfold ret. cbv beta iota.
  rewrite (redis_set_ok _ data b _ Hb). reflexivity.
Qed.

Lemma Cache_store_run (self : instance) (data : pyval) (b : string) (w : world)
    (n : Z) (ins outs : list string) :
  _redis self = Some Redis -> encode data = Some b ->
  counter_value w "Cache.store" = Some n -> n < int64_max ->
  log_of w (inputs_key "Cache.store") = Some ins ->
  log_of w (outputs_key "Cache.store") = Some outs ->
  __call__ Cache_store self [data] [] w
  = (Ok (VStr (uuid4 (entropy w))),
     World (<[outputs_key "Cache.store" := RList (outs ++ [uuid4 (entropy w)])]>
             (<[uuid4 (entropy w) := RString b]>
               (<[inputs_key "Cache.store" := RList (ins ++ [str_args [data]])]>
                 (<["Cache.store" := RString (Bytes.repr_int (n + 1))]> (server w)))))
           (wire w ++ [INCR "Cache.store";
                       RPUSH (inputs_key "Cache.store") (str_args [data]);
                       SET (uuid4 (entropy w)) b;
                       RPUSH (outputs_key "Cache.store") (uuid4 (entropy w))])
           (S (entropy w)) (stdout w)).
Proof.
  intros Hself Hb Hc Hn Hins Houts.
  destruct (uuid4_not_a_log (entropy w)) as (Un & Ui & Uo).
  unfold Cache_store.
  rewrite (count_calls_step (call_history store) self [data] [] w n Hself Hc Hn).
  cbn [__qualname__ call_history store].
  set (w1 := written w _ _ _).
  assert (Hins1 : log_of w1 (inputs_key (__qualname__ store)) = Some ins).
  { rewrite <- Hins. apply log_of_ext. subst w1.
    apply server_written_other, inputs_key_differs. }
  rewrite (call_history_returns store self [data] [] w1 ins Hself Hins1
             (VStr (uuid4 (entropy w))) (uuid4 (entropy w)) _ outs
             (store_run self data b _ Hself Hb) eq_refl).
  - subst w1. unfold written. cbn. rewrite <- !app_assoc. reflexivity.
  - rewrite <- Houts. apply log_of_ext. subst w1. cbn.
    rewrite lookup_insert_ne by (intros H; apply Uo; exact H).
    rewrite lookup_insert_ne by (apply inputs_outputs_differ).
    apply lookup_insert_ne. intros H. symmetry in H.
    exact (outputs_key_differs _ H).
Qed.

(** C6. [Cache.store] is [count_calls] around [call_history] around the
    function of the class.  One call, on an object with a client, a
    readable counter and two logs, sends four commands in this order: the
    increment of the counter, the append of [str(args)] to the Inputs log,
    the [SET] of the facade under the fresh key, and the append to the
    Outputs log of that key, which is what the call returns. *)
Theorem Cache_store_layers (self : instance) (data : pyval) (b : string) (w : world)
    (n : Z) (ins outs : list string) :
  _redis self = Some Redis -> encode data = Some b ->
  counter_value w "Cache.store" = Some n -> n < int64_max ->
  log_of w (inputs_key "Cache.store") = Some ins ->
  log_of w (outputs_key "Cache.store") = Some outs ->
  Cache_store = count_calls (call_history store)
  /\ exists w',
      __call__ Cache_store self [data] [] w = (Ok (VStr (uuid4 (entropy w))), w')
      /\ wire w' = wire w ++ [INCR "Cache.store";
                              RPUSH (inputs_key "Cache.store") (str_args [data]);
                              SET (uuid4 (entropy w)) b;
                              RPUSH (outputs_key "Cache.store") (uuid4 (entropy w))]
      /\ counter_value w' "Cache.store" = Some (n + 1)
      /\ log_of w' (inputs_key "Cache.store") = Some (ins ++ [str_args [data]])
      /\ log_of w' (outputs_key "Cache.store") = Some (outs ++ [uuid4 (entropy w)])
      /\ server w' !! uuid4 (entropy w) = Some (RString b).
Proof.
  intros Hself Hb Hc Hn Hins Houts. split; [reflexivity|].
  destruct (uuid4_not_a_log (entropy w)) as (Un & Ui & Uo).
  eexists. split; [apply (Cache_store_run self data b w n ins outs); assumption|].
  assert (Hlo : int64_min <= n).
  { unfold counter_value in Hc.
    destruct (server w !! "Cache.store") as [[s|l]|]; [| discriminate |].
    - apply string2ll_canonical in Hc. lia.
    - injection Hc as <-. unfold int64_min. lia. }
  split; [reflexivity|]. split; [|split; [|split]].
  - unfold counter_value. cbn [server].
    rewrite lookup_insert_ne by (apply outputs_key_differs).
    rewrite lookup_insert_ne by exact Un.
    rewrite lookup_insert_ne by (apply inputs_key_differs).
    rewrite lookup_insert_eq. apply string2ll_repr_int.
    unfold int64_min in *. lia.
  - unfold log_of. cbn [server].
    rewrite lookup_insert_ne by (intros H; symmetry in H; exact (inputs_outputs_differ _ H)).
    rewrite lookup_insert_ne by exact Ui.
    rewrite lookup_insert_eq. reflexivity.
  - unfold log_of. cbn [server]. rewrite lookup_insert_eq. reflexivity.
  - cbn [server].
    rewrite lookup_insert_ne by (intros H; apply Uo; symmetry; exact H).
    apply lookup_insert_eq.
Qed.


Lemma Cache_get_present (self : instance) (key b : string)
    (fn : option (pyval -> M pyval)) (w : world) :
  _redis self = Some Redis -> server w !! key = Some (RString b) ->
  Cache_get self key fn w
  = match fn with
    | Some f => f (VBytes b)
    | None => ret (VBytes b)
    end (World (server w) (wire w ++ [GET key]) (entropy w) (stdout w)).
Proof.
  intros Hself Hk. unfold Cache_get, bind, self_redis. rewrite Hself.
  unfold ret at 1. cbv beta iota.
  unfold redis_get, bind, send, lookup_key. cbn [server]. rewrite Hk. reflexivity.
Qed.

Lemma Cache_get_absent (self : instance) (key : string)
    (fn : option (pyval -> M pyval)) (w : world) :
  _redis self = Some Redis -> server w !! key = None ->
  Cache_get self key fn w
  = match fn with
    | Some f => f VNone
    | None => ret VNone
    end (World (server w) (wire w ++ [GET key]) (entropy w) (stdout w)).
Proof.
  intros Hself Hk. unfold Cache_get, bind, self_redis. rewrite Hself.
  unfold ret at 1. cbv beta iota.
  unfold redis_get, bind, send, lookup_key. cbn [server]. rewrite Hk. reflexivity.
Qed.


End Facade.


(** ** [replay] *)

Lemma py_decode_world (v : pyval) (w : world) : snd (py_decode v w) = w.
Proof.
  destruct v; try reflexivity. unfold py_decode.
  destruct (Bytes.valid_utf8 b); reflexivity.
Qed.

Lemma py_int_world (v : pyval) (w : world) : snd (py_int v w) = w.
Proof.
  destruct v; try reflexivity; unfold py_int.
  - destruct (int_text s); reflexivity.
  - destruct (Bytes.parse_int b); reflexivity.
Qed.

Lemma replay_loop_server (name : string) (pairs : list (pyval * pyval)) :
  forall w, server (snd (replay_loop name pairs w)) = server w.
Proof.
  induction pairs as [|[i o] pairs IH]; intros w; [reflexivity|].
  cbn [replay_loop]. unfold bind at 1.
  pose proof (py_decode_world i w) as Hi.
  destruct (py_decode i w) as [[i'|e] w1]; cbn [snd] in Hi; subst w1; [|reflexivity].
  unfold bind at 1.
  assert (Ho : forall c : M pyval, (forall w, snd (c w) = w) ->
               server (snd ((let (r, w') := c w in
                             match r with
                             | Ok a => (print (format_call name i' a) ;;
                                        replay_loop name pairs) w'
                             | Raise e => (Raise e, w')
                             end))) = server w).
  { intros c Hc. specialize (Hc w). destruct (c w) as [[a|e] w1]; cbn [snd] in Hc; subst w1;
      [|reflexivity].
    unfold bind, print. cbv beta iota. rewrite IH. reflexivity. }
  destruct (isinstance_bytes o).
  - apply (Ho (py_decode o)). intros w'. apply py_decode_world.
  - apply (Ho (ret o)). reflexivity.
Qed.

(** C8. [replay] leaves every key of the server as it was; and given [None],
    a function without [__self__], or a method of an object whose [_redis]
    is missing or is not a [redis.Redis] client, it returns at once: it
    prints nothing, sends nothing and raises nothing. *)
Theorem replay_read_only (fn : pyfn) (w : world) :
  server (snd (replay fn w)) = server w
  /\ (fn = FNone
      \/ (exists q, fn = Function q)
      \/ (exists self q, fn = BoundMethod self q /\ _redis self <> Some Redis) ->
      replay fn w = (Ok tt, w)).
Proof.
  split.
  - destruct fn as [|q|self name]; try reflexivity.
    unfold replay. destruct (_redis self) as [[|v]|]; try reflexivity.
    unfold bind at 1.
    pose proof (redis_exists_server name w) as He.
    destruct (redis_exists name w) as [[present|e] w1]; cbn [snd] in He; [|exact He].
    unfold bind at 1.
    assert (Hcount : forall c : M Z,
               server (snd (c w1)) = server w1 ->
               server (snd ((let (r, w') := c w1 in
                             match r with
                             | Ok a =>
                                 (print (name +:+ " was called " +:+ Bytes.repr_int a
                                         +:+ " times:") ;;
                                  let* fxn_inputs := redis_lrange (name +:+ ":inputs") 0 (-1) in
                                  let* fxn_outputs := redis_lrange (name +:+ ":outputs") 0 (-1) in
                                  replay_loop name (combine fxn_inputs fxn_outputs)) w'
                             | Raise e => (Raise e, w')
                             end))) = server w).
    { intros c Hc. destruct (c w1) as [[a|e] w2]; cbn [snd] in Hc; cbv beta iota;
        [|cbn [snd]; congruence].
      unfold bind at 1. unfold print at 1. cbv beta iota.
      unfold bind at 1.
      set (w3 := World _ _ _ _).
      pose proof (redis_lrange_server (name +:+ ":inputs") 0 (-1) w3) as H1.
      destruct (redis_lrange (name +:+ ":inputs") 0 (-1) w3) as [[xs|e] w4];
        subst w3; cbn [snd server] in H1 |- *; [|congruence].
      unfold bind at 1.
      pose proof (redis_lrange_server (name +:+ ":outputs") 0 (-1) w4) as H2.
      destruct (redis_lrange (name +:+ ":outputs") 0 (-1) w4) as [[ys|e] w5];
        cbn [snd] in H2 |- *; [|congruence].
      rewrite replay_loop_server. congruence. }
    destruct (negb (present =? 0)).
    + apply Hcount. unfold bind.
      pose proof (redis_get_server name w1) as Hg.
      destruct (redis_get name w1) as [[v|e] w2]; cbn [snd] in Hg; [|exact Hg].
      rewrite py_int_world. exact Hg.
    + apply Hcount. reflexivity.
  - intros [-> | [[q ->] | (self & q & -> & Hno)]]; try reflexivity.
    unfold replay. destruct (_redis self) as [[|v]|]; try reflexivity.
    contradiction Hno. reflexivity.
Qed.


Lemma combine_bytes (xs ys : list string) :
  combine (map VBytes xs) (map VBytes ys)
  = map (fun p => (VBytes (fst p), VBytes (snd p))) (combine xs ys).
Proof.
  revert ys. induction xs as [|x xs IH]; intros [|y ys]; cbn; try reflexivity.
  rewrite IH. reflexivity.
Qed.

Lemma combine_lookup {A B} (xs : list A) (ys : list B) (i : nat) (a : A) (b : B) :
  xs !! i = Some a -> ys !! i = Some b -> combine xs ys !! i = Some (a, b).
Proof.
  revert ys i. induction xs as [|x xs IH]; intros [|y ys] [|i]; cbn; try discriminate.
  - intros [= ->] [= ->]. reflexivity.
  - apply IH.
Qed.

Lemma replay_loop_prints (name : string) (pairs : list (string * string)) :
  Forall both_utf8 pairs ->
  forall w,
    replay_loop name (map (fun p => (VBytes (fst p), VBytes (snd p))) pairs) w
    = (Ok tt,
       World (server w) (wire w) (entropy w)
             (stdout w ++ map (fun p => name +:+ "(" +:+ "*" +:+ fst p
                                        +:+ ") -> " +:+ snd p) pairs)).
Proof.
  induction 1 as [|[a b] pairs [Ha Hb] _ IH]; intros w.
  - cbn. rewrite app_nil_r. destruct w; reflexivity.
  - cbn [map replay_loop fst snd isinstance_bytes] in *.
    unfold bind at 1. unfold py_decode at 1. rewrite Ha. unfold ret at 1. cbv beta iota.
    unfold bind at 1. unfold py_decode at 1. rewrite Hb. unfold ret at 1. cbv beta iota.
    unfold bind at 1. unfold print at 1. cbv beta iota.
    rewrite IH. cbn [server wire entropy stdout]. rewrite <- app_assoc. reflexivity.
Qed.

(** Lines 172-174: the count [replay] reports is the counter. *)
Lemma replay_reads_counter (name : string) (w : world) (c : Z) (k : Z -> M unit) :
  counter_value w name = Some c ->
  exists cs,
    (let* present := redis_exists name in
     let* fxn_call_count :=
       if negb (present =? 0)
       then let* v := redis_get name in py_int (if truthy v then v else VInt 0)
       else ret 0 in
     k fxn_call_count) w
    = k c (World (server w) (wire w ++ cs) (entropy w) (stdout w)).
Proof.
  unfold counter_value. intros Hc.
  unfold bind at 1. unfold redis_exists, bind, send, lookup_key. cbn [server].
  destruct (server w !! name) as [[b|l]|] eqn:Hk; [| discriminate |].
  - apply string2ll_canonical in Hc as (_ & Hp & _).
    assert (Hb : String.eqb b "" = false).
    { destruct b; [discriminate Hp | reflexivity]. }
    exists [EXISTS name; GET name]. unfold ret at 1. cbv beta iota.
    change (negb (1 =? 0)) with true. cbv iota.
    unfold redis_get, bind, send, lookup_key. cbn [server]. rewrite Hk.
    unfold ret at 1. cbv beta iota. cbn [truthy]. rewrite Hb. cbn [negb].
    unfold py_int. rewrite Hp. unfold ret at 1. cbn [server wire entropy stdout].
    rewrite <- app_assoc. reflexivity.
  - injection Hc as <-. exists [EXISTS name]. reflexivity.
Qed.

(** C7, as the code has it.  On an object with a client, a readable counter
    and two logs whose paired entries are well-formed UTF-8, [replay]
    returns without raising; after the header it prints one line for each
    index both logs have, [min(len(Inputs), len(Outputs))] lines in stored
    order, line [i] pairing entry [i] of Inputs with entry [i] of Outputs;
    the rest of the longer log is dropped; the server is left as it was. *)
Theorem replay_pairs (self : instance) (name : string) (w : world) (c : Z)
    (ins outs : list string) :
  _redis self = Some Redis ->
  counter_value w name = Some c ->
  log_of w (inputs_key name) = Some ins ->
  log_of w (outputs_key name) = Some outs ->
  Forall both_utf8 (combine ins outs) ->
  exists w' lines,
    replay (BoundMethod self name) w = (Ok tt, w')
    /\ stdout w'
       = stdout w ++ (name +:+ " was called " +:+ Bytes.repr_int c +:+ " times:") :: lines
    /\ length lines = Nat.min (length ins) (length outs)
    /\ (forall (i : nat) a b,
           ins !! i = Some a -> outs !! i = Some b ->
           lines !! i = Some (name +:+ "(" +:+ "*" +:+ a +:+ ") -> " +:+ b))
    /\ server w' = server w.
Proof.
  intros Hself Hc Hins Houts Hutf.
  unfold replay. rewrite Hself.
  destruct (replay_reads_counter name w c
              (fun n => print (name +:+ " was called " +:+ Bytes.repr_int n +:+ " times:") ;;
                        let* fxn_inputs := redis_lrange (name +:+ ":inputs") 0 (-1) in
                        let* fxn_outputs := redis_lrange (name +:+ ":outputs") 0 (-1) in
                        replay_loop name (combine fxn_inputs fxn_outputs)) Hc)
    as (cs & ->).
  unfold bind at 1. unfold print at 1. cbv beta iota.
  unfold bind at 1. fold (inputs_key name).
  rewrite (redis_lrange_all (inputs_key name) _ ins) by exact Hins.
  unfold bind at 1. fold (outputs_key name).
  rewrite (redis_lrange_all (outputs_key name) _ outs) by exact Houts.
  rewrite combine_bytes, (replay_loop_prints name _ Hutf).
  cbn [server wire entropy stdout].
  eexists _, (map (fun p => name +:+ "(" +:+ "*" +:+ fst p +:+ ") -> " +:+ snd p)
                  (combine ins outs)).
  split; [reflexivity|].
  split; [cbn [stdout]; rewrite <- app_assoc; reflexivity|].
  split; [rewrite length_map; apply length_combine|].
  split; [|reflexivity].
  intros i a b Ha Hb. rewrite list_lookup_fmap, (combine_lookup ins outs i a b Ha Hb).
  reflexivity.
Qed.


(** ** Retrieval *)

(** C2, what the code does.  On a fresh cache, where no key is set,
    [get(key, fn)] calls [fn] on [None] and returns what that call returns;
    with [fn=int] the call raises [TypeError]. *)
Theorem Cache_get_applies_fn_to_absent (key : string) (w : world) :
  (forall fn : pyval -> M pyval,
      (let* cache := Cache in Cache_get cache key (Some fn)) w
      = fn VNone (World ∅ (wire w ++ [FLUSHDB; GET key]) (entropy w) (stdout w)))
  /\ fst ((let* cache := Cache in Cache_get cache key (Some int_fn)) w) = Raise TypeError.
Proof.
  assert (H : forall fn : pyval -> M pyval,
             (let* cache := Cache in Cache_get cache key (Some fn)) w
             = fn VNone (World ∅ (wire w ++ [FLUSHDB; GET key]) (entropy w) (stdout w))).
  { intros fn. unfold bind at 1. unfold Cache, redis_flushdb, bind, send, drop_all, ret.
    cbv beta iota. cbn [server wire entropy stdout].
    rewrite Cache_get_absent by (reflexivity || apply lookup_empty).
    cbn [server wire entropy stdout]. rewrite <- app_assoc. reflexivity. }
  split; [exact H|]. rewrite H. reflexivity.
Qed.

(** The typed variants on a key that is unset, and on one that holds a
    string: [get_str] gives the [repr] of the bytes, [get_int] parses
    them. *)
Lemma typed_getters_absent (self : instance) (key : string) (w : world) :
  _redis self = Some Redis -> server w !! key = None ->
  fst (Cache_get_str self key w) = Ok VNone /\ fst (get_int self key w) = Ok VNone.
Proof.
  intros Hself Hk. unfold Cache_get_str, get_int, bind.
  rewrite (Cache_get_absent self key None w Hself Hk). split; reflexivity.
Qed.

Lemma typed_getters_present (self : instance) (key b : string) (w : world) :
  _redis self = Some Redis -> server w !! key = Some (RString b) ->
  fst (Cache_get_str self key w) = Ok (VStr (Bytes.repr b))
  /\ fst (get_int self key w)
     = match Bytes.parse_int b with
       | Some z => Ok (VInt z)
       | None => Raise ValueError
       end.
Proof.
  intros Hself Hk. unfold Cache_get_str, get_int, bind.
  rewrite (Cache_get_present self key b None w Hself Hk).
  split; [reflexivity|].
  unfold py_int, ret. cbv beta iota. destruct (Bytes.parse_int b); reflexivity.
Qed.

(** [get_int] is not an attribute of a [Cache] instance. *)
Lemma get_int_not_a_method (self : instance) (key : string) (w : world) :
  assoc "get_int" Cache_body = None
  /\ In "get_int" module_body
  /\ call_method self "get_int" key w = (Raise (AttributeError "get_int"), w).
Proof. split; [reflexivity | split; [cbn; auto | reflexivity]]. Qed.


(** * Further properties *)

(** ** Every way a call of [Cache.store] ends *)

Lemma bind_data_pure (args : list pyval) (kwargs : list (string * pyval)) (w : world) :
  bind_data args kwargs w = (fst (bind_data args kwargs w), w).
Proof.
  unfold bind_data, ret, raise.
  destruct args as [|a [|a' args]], kwargs as [|[n v] [|p kwargs]];
    try destruct (String.eqb n "data"); reflexivity.
Qed.

Lemma bind_data_world (args : list pyval) (kwargs : list (string * pyval)) (w w' : world) :
  fst (bind_data args kwargs w) = fst (bind_data args kwargs w').
Proof.
  unfold bind_data, ret, raise.
  destruct args as [|a [|a' args]], kwargs as [|[n v] [|p kwargs]];
    try destruct (String.eqb n "data"); reflexivity.
Qed.

Lemma bind_data_raises (args : list pyval) (kwargs : list (string * pyval)) (w : world)
    (e : exn) :
  fst (bind_data args kwargs w) = Raise e -> e = TypeError.
Proof.
  unfold bind_data, ret, raise.
  destruct args as [|a [|a' args]], kwargs as [|[n v] [|p kwargs]];
    try destruct (String.eqb n "data"); cbn; congruence.
Qed.

Lemma redis_set_refused (key : string) (v : pyval) (w : world) :
  encode v = None -> redis_set key v w = (Raise DataError, w).
Proof. unfold redis_set, encoded, bind, raise. intros ->. reflexivity. Qed.

Lemma store_any (self : instance) (args : list pyval) (kwargs : list (string * pyval))
    (w : world) :
  _redis self = Some Redis ->
  __call__ store self args kwargs w
  = match fst (bind_data args kwargs w) with
    | Raise e => (Raise e, w)
    | Ok data =>
        match encode data with
        | None => (Raise DataError,
                   World (server w) (wire w) (S (entropy w)) (stdout w))
        | Some b => (Ok (VStr (uuid4 (entropy w))),
                     World (<[uuid4 (entropy w) := RString b]> (server w))
                           (wire w ++ [SET (uuid4 (entropy w)) b])
                           (S (entropy w)) (stdout w))
        end
    end.
Proof.
  intros Hself. unfold store. cbn [__call__].
  unfold bind at 1. pose proof (bind_data_pure args kwargs w) as Hp.
  destruct (bind_data args kwargs w) as [r w']. cbn [fst] in *.
  injection Hp as ->. destruct r as [data|e]; [|reflexivity].
  unfold bind, fresh_uuid, self_redis. rewrite Hself. unfold ret. cbv beta iota.
  destruct (encode data) as [b|] eqn:Hb.
  - rewrite (redis_set_ok _ data b _ Hb). reflexivity.
  - rewrite (redis_set_refused _ data _ Hb). reflexivity.
Qed.

Lemma counter_value_lower (w : world) (name : string) (n : Z) :
  counter_value w name = Some n -> int64_min <= n.
Proof.
  unfold counter_value. destruct (server w !! name) as [[b|l]|]; [| discriminate |].
  - intros H. apply string2ll_canonical in H. lia.
  - intros [= <-]. unfold int64_min. lia.
Qed.

Lemma tidy_ext (w w' : world) (n : Z) (ins outs : list string) :
  server w' !! "Cache.store" = server w !! "Cache.store" ->
  server w' !! inputs_key "Cache.store" = server w !! inputs_key "Cache.store" ->
  server w' !! outputs_key "Cache.store" = server w !! outputs_key "Cache.store" ->
  tidy w n ins outs -> tidy w' n ins outs.
Proof.
  unfold tidy, counter_value, log_of. intros -> -> ->. auto.
Qed.

Lemma tidy_counted_and_logged (w : world) (n : Z) (ins outs : list string) (s : string) :
  tidy w n ins outs -> n < int64_max ->
  tidy (counted_and_logged w n ins s) (n + 1) (ins ++ [s]) outs.
Proof.
  intros (Hc & Hi & Ho) Hn. pose proof (counter_value_lower _ _ _ Hc) as Hlo.
  unfold tidy, counter_value, log_of, counted_and_logged. cbn [server].
  split; [|split].
  - rewrite lookup_insert_ne by (apply inputs_key_differs).
    rewrite lookup_insert_eq. apply string2ll_repr_int. unfold int64_min in *. lia.
  - rewrite lookup_insert_eq. reflexivity.
  - rewrite lookup_insert_ne by (apply inputs_outputs_differ).
    rewrite lookup_insert_ne
      by (intros H; symmetry in H; exact (outputs_key_differs _ H)).
    exact Ho.
Qed.

Lemma Cache_get_str_present (self : instance) (key b : string) (w : world) :
  _redis self = Some Redis -> server w !! key = Some (RString b) ->
  fst (Cache_get_str self key w) = Ok (VStr (Bytes.repr b)).
Proof.
  intros Hself Hk. unfold Cache_get_str, bind.
  rewrite (Cache_get_present self key b None w Hself Hk). reflexivity.
Qed.

Lemma get_int_present (self : instance) (key b : string) (w : world) :
  _redis self = Some Redis -> server w !! key = Some (RString b) ->
  fst (get_int self key w)
  = match Bytes.parse_int b with
    | Some z => Ok (VInt z)
    | None => Raise ValueError
    end.
Proof.
  intros Hself Hk. unfold get_int, bind.
  rewrite (Cache_get_present self key b None w Hself Hk).
  unfold py_int, ret. cbv beta iota. destruct (Bytes.parse_int b); reflexivity.
Qed.

Section Store_runs.

Hypothesis uuid4_length : forall n, String.length (uuid4 n) = 36%nat.

Lemma uuid4_fresh_key (n : nat) :
  uuid4 n <> "Cache.store"
  /\ uuid4 n <> inputs_key "Cache.store"
  /\ uuid4 n <> outputs_key "Cache.store".
Proof.
  repeat split; intros H; apply (f_equal String.length) in H;
    rewrite uuid4_length in H; discriminate H.
Qed.

(** A call of [Cache.store], whatever its arguments, from a state where the
    counter and the logs are readable. *)
Lemma Cache_store_any (self : instance) (args : list pyval)
    (kwargs : list (string * pyval)) (w : world) (n : Z) (ins outs : list string) :
  _redis self = Some Redis -> tidy w n ins outs -> n < int64_max ->
  __call__ Cache_store self args kwargs w
  = let w2 := counted_and_logged w n ins (str_args args) in
    match fst (bind_data args kwargs w) with
    | Raise e => (Raise e, w2)
    | Ok data =>
        match encode data with
        | None => (Raise DataError,
                   World (server w2) (wire w2) (S (entropy w)) (stdout w))
        | Some b =>
            (Ok (VStr (uuid4 (entropy w))),
             World (<[outputs_key "Cache.store" := RList (outs ++ [uuid4 (entropy w)])]>
                     (<[uuid4 (entropy w) := RString b]> (server w2)))
                   (wire w2 ++ [SET (uuid4 (entropy w)) b;
                                RPUSH (outputs_key "Cache.store") (uuid4 (entropy w))])
                   (S (entropy w)) (stdout w))
        end
    end.
Proof.
  intros Hself (Hc & Hins & Houts) Hn. cbv zeta.
  destruct (uuid4_fresh_key (entropy w)) as (Un & Ui & Uo).
  unfold Cache_store.
  rewrite (count_calls_step (call_history store) self args kwargs w n Hself Hc Hn).
  cbn [__qualname__ call_history store].
  set (w1 := written w _ _ _).
  assert (Hins1 : log_of w1 (inputs_key (__qualname__ store)) = Some ins).
  { rewrite <- Hins. apply log_of_ext. subst w1.
    apply server_written_other, inputs_key_differs. }
  rewrite (call_history_unfold store self args kwargs w1 ins Hself Hins1).
  cbn [__qualname__ store].
  assert (Hw2 : written w1 [RPUSH (inputs_key "Cache.store") (str_args args)]
                        (inputs_key "Cache.store") (RList (ins ++ [str_args args]))
                = counted_and_logged w n ins (str_args args)).
  { subst w1. unfold written, counted_and_logged. cbn [server wire entropy stdout].
    rewrite <- app_assoc. reflexivity. }
  rewrite Hw2. set (w2 := counted_and_logged w n ins (str_args args)).
  rewrite (store_any self args kwargs w2 Hself).
  rewrite (bind_data_world args kwargs w2 w).
  destruct (fst (bind_data args kwargs w)) as [data|e]; [|reflexivity].
  destruct (encode data) as [b|] eqn:Hb; [|reflexivity].
  assert (Houts3 : log_of (World (<[uuid4 (entropy w2) := RString b]> (server w2))
                                 (wire w2 ++ [SET (uuid4 (entropy w2)) b])
                                 (S (entropy w2)) (stdout w2))
                          (outputs_key "Cache.store") = Some outs).
  { rewrite <- Houts. apply log_of_ext. subst w2. unfold counted_and_logged.
    cbn [server entropy].
    rewrite lookup_insert_ne by (intros H; apply Uo; exact H).
    rewrite lookup_insert_ne by (apply inputs_outputs_differ).
    apply lookup_insert_ne. intros H. symmetry in H.
    exact (outputs_key_differs _ H). }
  rewrite (redis_rpush_ok _ (VStr (uuid4 (entropy w2))) (uuid4 (entropy w2)) _ outs
             eq_refl Houts3).
  subst w2. unfold written, counted_and_logged. cbn [server wire entropy stdout].
  rewrite <- !app_assoc. reflexivity.
Qed.


Lemma Cache_store_cases (self : instance) (args : list pyval)
    (kwargs : list (string * pyval)) (w : world) (n : Z) (ins outs : list string) :
  _redis self = Some Redis -> tidy w n ins outs -> n < int64_max ->
  exists r w',
    __call__ Cache_store self args kwargs w = (r, w')
    /\ stdout w' = stdout w
    /\ (forall k, k <> "Cache.store" -> k <> inputs_key "Cache.store" ->
                  k <> outputs_key "Cache.store" -> k <> uuid4 (entropy w) ->
                  server w' !! k = server w !! k)
    /\ ((exists data b,
            fst (bind_data args kwargs w) = Ok data /\ encode data = Some b
            /\ r = Ok (VStr (uuid4 (entropy w)))
            /\ entropy w' = S (entropy w)
            /\ tidy w' (n + 1) (ins ++ [str_args args]) (outs ++ [uuid4 (entropy w)])
            /\ server w' !! uuid4 (entropy w) = Some (RString b))
        \/ ((r = Raise TypeError \/ r = Raise DataError)
            /\ (entropy w' = entropy w \/ entropy w' = S (entropy w))
            /\ tidy w' (n + 1) (ins ++ [str_args args]) outs
            /\ server w' !! uuid4 (entropy w) = server w !! uuid4 (entropy w))).
Proof.
  intros Hself Ht Hn.
  destruct (uuid4_fresh_key (entropy w)) as (Un & Ui & Uo).
  pose proof (tidy_counted_and_logged w n ins outs (str_args args) Ht Hn) as Ht2.
  rewrite (Cache_store_any self args kwargs w n ins outs Hself Ht Hn). cbv zeta.
  assert (Hframe2 : forall k, k <> "Cache.store" -> k <> inputs_key "Cache.store" ->
                    server (counted_and_logged w n ins (str_args args)) !! k
                    = server w !! k).
  { intros k Hk1 Hk2. unfold counted_and_logged. cbn [server].
    rewrite lookup_insert_ne by congruence. apply lookup_insert_ne. congruence. }
  destruct (fst (bind_data args kwargs w)) as [data|e] eqn:Hd.
  - destruct (encode data) as [b|] eqn:Hb.
    + eexists _, _. split; [reflexivity|]. split; [reflexivity|]. split.
      { intros k Hk1 Hk2 Hk3 Hk4. cbn [server].
        rewrite lookup_insert_ne by congruence. rewrite lookup_insert_ne by congruence.
        apply Hframe2; assumption. }
      left. exists data, b. repeat split; try reflexivity; try assumption.
      * destruct Ht2 as (Hc2 & _). unfold counter_value in *. cbn [server].
        rewrite lookup_insert_ne by (apply outputs_key_differs).
        rewrite lookup_insert_ne by exact Un. exact Hc2.
      * destruct Ht2 as (_ & Hi2 & _). unfold log_of in *. cbn [server].
        rewrite lookup_insert_ne
          by (intros H; symmetry in H; exact (inputs_outputs_differ _ H)).
        rewrite lookup_insert_ne by exact Ui. exact Hi2.
      * unfold log_of. cbn [server]. rewrite lookup_insert_eq. reflexivity.
      * cbn [server]. rewrite lookup_insert_ne by (intros H; apply Uo; symmetry; exact H).
        apply lookup_insert_eq.
    + eexists _, _. split; [reflexivity|]. split; [reflexivity|]. split.
      { intros k Hk1 Hk2 _ _. cbn [server]. apply Hframe2; assumption. }
      right. split; [right; reflexivity|]. split; [right; reflexivity|]. split.
      * apply (tidy_ext (counted_and_logged w n ins (str_args args)));
          [reflexivity | reflexivity | reflexivity | exact Ht2].
      * cbn [server]. apply Hframe2; assumption.
  - apply (bind_data_raises args kwargs w e) in Hd as ->.
    eexists _, _. split; [reflexivity|]. split; [reflexivity|]. split.
    { intros k Hk1 Hk2 _ _. apply Hframe2; assumption. }
    right. split; [left; reflexivity|]. split; [left; reflexivity|]. split.
    + exact Ht2.
    + apply Hframe2; assumption.
Qed.



(** X2. Over a sequence of calls of [Cache.store] whose arguments the
    interpreter can print (integers of at most 4300 digits), from a state
    where the logs are readable and the counter is readable and far enough
    below the largest 64-bit integer for that many increments: whether the
    calls return or raise [TypeError] or [DataError], the counter and the
    Inputs log both grow by one per call, in step, with [str(args)] of each
    call in order; the Outputs log keeps what it had and grows by at most
    one per call. *)
Theorem Cache_store_counter_and_inputs_in_step (self : instance)
    (calls : list (list pyval * list (string * pyval))) :
  _redis self = Some Redis ->
  Forall (fun c => call_printable (fst c) (snd c) = true) calls ->
  forall (w : world) (n : Z) (ins outs : list string),
    tidy w n ins outs ->
    n + Z.of_nat (length calls) <= int64_max ->
    exists new,
      tidy (snd (attempt_each Cache_store self calls w))
           (n + Z.of_nat (length calls))
           (ins ++ map (fun c => str_args (fst c)) calls)
           (outs ++ new)
      /\ (length new <= length calls)%nat.
Proof.
  intros Hself _. induction calls as [|[args kwargs] calls IH]; intros w n ins outs Ht Hn.
  - exists []. cbn. rewrite Z.add_0_r, !app_nil_r. split; [exact Ht | lia].
  - cbn [attempt_each length map fst] in *. unfold bind, attempt. cbv beta iota.
    destruct (Cache_store_cases self args kwargs w n ins outs Hself Ht ltac:(lia))
      as (r & w1 & Hcall & _ & _ & [(data & b & _ & _ & _ & _ & Ht1 & _)
                                   | (_ & _ & Ht1 & _)]);
      rewrite Hcall; cbn [snd].
    + destruct (IH w1 (n + 1) _ _ Ht1 ltac:(lia)) as (new & Ht2 & Hlen).
      exists (uuid4 (entropy w) :: new). split; [|cbn; lia].
      replace (n + Z.of_nat (S (length calls))) with (n + 1 + Z.of_nat (length calls))
        by lia.
      rewrite <- !app_assoc in Ht2. exact Ht2.
    + destruct (IH w1 (n + 1) _ _ Ht1 ltac:(lia)) as (new & Ht2 & Hlen).
      exists new. split; [|lia].
      replace (n + Z.of_nat (S (length calls))) with (n + 1 + Z.of_nat (length calls))
        by lia.
      rewrite <- !app_assoc in Ht2. exact Ht2.
Qed.

(** X3. A call that raises shifts the pairing for good.  From aligned logs,
    when [store(d1)] is refused by the client and [store(d2)] then
    returns [key2]: at the index of the first call the Inputs log holds
    the arguments of the first call and the Outputs log holds [key2], the
    result of the second. *)
Theorem failed_store_shifts_the_pairing (self : instance) (d1 d2 : pyval) (b2 : string)
    (w : world) (n : Z) (ins outs : list string) :
  _redis self = Some Redis -> tidy w n ins outs -> n + 1 < int64_max ->
  length ins = length outs ->
  encode d1 = None -> encode d2 = Some b2 ->
  exists w1 w2 ins2 outs2,
    __call__ Cache_store self [d1] [] w = (Raise DataError, w1)
    /\ __call__ Cache_store self [d2] [] w1 = (Ok (VStr (uuid4 (S (entropy w)))), w2)
    /\ log_of w2 (inputs_key "Cache.store") = Some ins2
    /\ log_of w2 (outputs_key "Cache.store") = Some outs2
    /\ ins2 !! length ins = Some (str_args [d1])
    /\ outs2 !! length ins = Some (uuid4 (S (entropy w)))
    /\ server w2 !! uuid4 (S (entropy w)) = Some (RString b2).
Proof.
  intros Hself Ht Hn Hlen H1 H2.
  pose proof (Cache_store_any self [d1] [] w n ins outs Hself Ht ltac:(lia)) as Hc1.
  cbv zeta in Hc1. cbn [bind_data ret fst] in Hc1. rewrite H1 in Hc1.
  set (w1 := World _ _ _ _) in Hc1.
  assert (Ht1 : tidy w1 (n + 1) (ins ++ [str_args [d1]]) outs).
  { apply (tidy_ext (counted_and_logged w n ins (str_args [d1])));
      [reflexivity | reflexivity | reflexivity |].
    apply tidy_counted_and_logged; [exact Ht | lia]. }
  destruct (Cache_store_cases self [d2] [] w1 (n + 1) _ _ Hself Ht1 Hn)
    as (r & w2 & Hc2 & _ & _ & [(data & b & Hd & Hb & Hr & _ & Ht2 & Hk)
                                | ([Hr | Hr] & _)]).
  - cbn [bind_data ret fst] in Hd. injection Hd as <-.
    rewrite H2 in Hb. injection Hb as <-. subst r.
    change (entropy w1) with (S (entropy w)) in *.
    destruct Ht2 as (_ & Hi2 & Ho2).
    exists w1, w2, ((ins ++ [str_args [d1]]) ++ [str_args [d2]]),
      (outs ++ [uuid4 (S (entropy w))]).
    repeat split; try assumption.
    + rewrite <- app_assoc. rewrite lookup_app_r by lia.
      rewrite Nat.sub_diag. reflexivity.
    + rewrite Hlen. rewrite lookup_app_r by lia. rewrite Nat.sub_diag. reflexivity.
  - exfalso. rewrite (Cache_store_any self [d2] [] w1 (n + 1) _ _ Hself Ht1 Hn) in Hc2.
    cbv zeta in Hc2. cbn [bind_data ret fst] in Hc2. rewrite H2 in Hc2.
    injection Hc2 as Hc2 _. congruence.
  - exfalso. rewrite (Cache_store_any self [d2] [] w1 (n + 1) _ _ Hself Ht1 Hn) in Hc2.
    cbv zeta in Hc2. cbn [bind_data ret fst] in Hc2. rewrite H2 in Hc2.
    injection Hc2 as Hc2 _. congruence.
Qed.

(** X4. A value given by keyword is stored but not recorded: [store(data=d)]
    returns the key under which [d] is kept, and the Inputs log gains the
    text of the empty tuple, whatever [d] is. *)
Theorem keyword_argument_not_logged (self : instance) (d : pyval) (b : string)
    (w : world) (n : Z) (ins outs : list string) :
  _redis self = Some Redis -> tidy w n ins outs -> n < int64_max ->
  encode d = Some b ->
  exists w',
    __call__ Cache_store self [] [("data", d)] w = (Ok (VStr (uuid4 (entropy w))), w')
    /\ server w' !! uuid4 (entropy w) = Some (RString b)
    /\ log_of w' (inputs_key "Cache.store") = Some (ins ++ ["()"])
    /\ log_of w' (outputs_key "Cache.store") = Some (outs ++ [uuid4 (entropy w)]).
Proof.
  intros Hself Ht Hn Hb.
  destruct (Cache_store_cases self [] [("data", d)] w n ins outs Hself Ht Hn)
    as (r & w' & Hc & _ & _ & [(data & b' & Hd & Hb' & Hr & _ & Ht' & Hk)
                               | ([Hr | Hr] & _)]).
  - cbn in Hd. injection Hd as <-. rewrite Hb in Hb'. injection Hb' as <-. subst r.
    destruct Ht' as (_ & Hi & Ho). exists w'. auto.
  - exfalso. rewrite (Cache_store_any self _ _ w n ins outs Hself Ht Hn) in Hc.
    cbv zeta in Hc. cbn in Hc. rewrite Hb in Hc. injection Hc as Hc _. congruence.
  - exfalso. rewrite (Cache_store_any self _ _ w n ins outs Hself Ht Hn) in Hc.
    cbv zeta in Hc. cbn in Hc. rewrite Hb in Hc. injection Hc as Hc _. congruence.
Qed.


(** Storing one value after the other, each of them one the client
    accepts. *)
Lemma call_each_stores (self : instance) :
  _redis self = Some Redis ->
  forall (ds : list pyval) (w : world) (n : Z) (ins outs : list string),
    Forall (fun d => encode d <> None) ds ->
    tidy w n ins outs ->
    n + Z.of_nat (length ds) <= int64_max ->
    exists w',
      call_each Cache_store self (one_each ds) w
      = (Ok (map (fun i => VStr (uuid4 i)) (seq (entropy w) (length ds))), w')
      /\ tidy w' (n + Z.of_nat (length ds))
              (ins ++ map (fun d => str_args [d]) ds)
              (outs ++ map uuid4 (seq (entropy w) (length ds)))
      /\ stdout w' = stdout w
      /\ (forall k, k <> "Cache.store" -> k <> inputs_key "Cache.store" ->
                    k <> outputs_key "Cache.store" ->
                    ~ In k (map uuid4 (seq (entropy w) (length ds))) ->
                    server w' !! k = server w !! k)
      /\ (NoDup (map uuid4 (seq (entropy w) (length ds))) ->
          forall (i : nat) d b,
            ds !! i = Some d -> encode d = Some b ->
            server w' !! uuid4 (entropy w + i)%nat = Some (RString b)).
Proof.
  intros Hself. induction ds as [|d ds IH]; intros w n ins outs Hok Ht Hn.
  - exists w. cbn. rewrite Z.add_0_r, !app_nil_r.
    split; [reflexivity|]. split; [exact Ht|]. split; [reflexivity|].
    split; [reflexivity|]. intros _ i d b Hi. discriminate Hi.
  - apply Forall_cons in Hok as [Hd Hok]. cbn [length] in Hn.
    destruct (Cache_store_cases self [d] [] w n ins outs Hself Ht ltac:(lia))
      as (r & w1 & Hc & Hout & Hframe & [(data & b & Hdata & Hb & Hr & He & Ht1 & Hk)
                                         | ([Hr | Hr] & _)]).
    + cbn in Hdata. injection Hdata as <-. subst r.
      destruct (uuid4_fresh_key (entropy w)) as (Un & Ui & Uo).
      destruct (IH w1 (n + 1) _ _ Hok Ht1 ltac:(lia))
        as (w' & Hrun & Ht' & Hout' & Hframe' & Hkeys').
      exists w'. cbn [one_each map call_each length seq]. unfold bind at 1. rewrite Hc.
      fold (one_each ds). unfold bind at 1. rewrite Hrun. rewrite He in *.
      split; [reflexivity|]. split.
      { replace (n + Z.of_nat (S (length ds))) with (n + 1 + Z.of_nat (length ds)) by lia.
        rewrite <- !app_assoc in Ht'. exact Ht'. }
      split; [congruence|]. split.
      { intros k K1 K2 K3 K4. rewrite Hframe'; try assumption.
        - apply Hframe; try assumption. intros ->. apply K4. left. reflexivity.
        - intros Hin. apply K4. right. exact Hin. }
      intros Hnd i d' b' Hi Hb'. apply NoDup_cons in Hnd as [Hfresh Hnd].
      destruct i as [|i].
      * cbn in Hi. injection Hi as <-. rewrite Hb in Hb'. injection Hb' as <-.
        rewrite Nat.add_0_r. rewrite Hframe'; try assumption.
        rewrite <- list_elem_of_In. exact Hfresh.
      * cbn in Hi. replace (entropy w + S i)%nat with (S (entropy w) + i)%nat by lia.
        apply (Hkeys' Hnd i d' b' Hi Hb').
    + exfalso. rewrite (Cache_store_any self _ _ w n ins outs Hself Ht ltac:(lia)) in Hc.
      cbv zeta in Hc. cbn [bind_data ret fst] in Hc.
      destruct (encode d); [|congruence]. injection Hc as Hc _. congruence.
    + exfalso. rewrite (Cache_store_any self _ _ w n ins outs Hself Ht ltac:(lia)) in Hc.
      cbv zeta in Hc. cbn [bind_data ret fst] in Hc.
      destruct (encode d); [|congruence]. injection Hc as Hc _. congruence.
Qed.

(** X5. Values stored one after the other all stay retrievable, as long as
    the identifiers drawn are distinct: each call returns its fresh key,
    and after the last call [get] on the key of call [i] returns the bytes
    of value [i]; no later call overwrites an earlier one, nor do the
    counter and the logs. *)
Theorem stored_values_stay (self : instance) (ds : list pyval)
    (w : world) (n : Z) (ins outs : list string) :
  _redis self = Some Redis ->
  tidy w n ins outs ->
  n + Z.of_nat (length ds) <= int64_max ->
  Forall (fun d => encode d <> None) ds ->
  NoDup (map uuid4 (seq (entropy w) (length ds))) ->
  exists w',
    call_each Cache_store self (one_each ds) w
    = (Ok (map (fun i => VStr (uuid4 i)) (seq (entropy w) (length ds))), w')
    /\ forall (i : nat) d b,
         ds !! i = Some d -> encode d = Some b ->
         fst (Cache_get self (uuid4 (entropy w + i)%nat) None w') = Ok (VBytes b).
Proof.
  intros Hself Ht Hn Hok Hnd.
  destruct (call_each_stores self Hself ds w n ins outs Hok Ht Hn)
    as (w' & Hrun & _ & _ & _ & Hkeys).
  exists w'. split; [exact Hrun|]. intros i d b Hi Hb.
  rewrite (Cache_get_present self _ b None w' Hself (Hkeys Hnd i d b Hi Hb)).
  reflexivity.
Qed.


(** What [replay] prints, on readable keys. *)
Lemma replay_prints (self : instance) (name : string) (w : world) (c : Z)
    (ins outs : list string) :
  _redis self = Some Redis ->
  counter_value w name = Some c ->
  log_of w (inputs_key name) = Some ins ->
  log_of w (outputs_key name) = Some outs ->
  Forall both_utf8 (combine ins outs) ->
  exists cs,
    replay (BoundMethod self name) w
    = (Ok tt,
       World (server w) (wire w ++ cs) (entropy w)
             (stdout w
              ++ (name +:+ " was called " +:+ Bytes.repr_int c +:+ " times:")
                 :: map (fun p => name +:+ "(" +:+ "*" +:+ fst p +:+ ") -> " +:+ snd p)
                        (combine ins outs))).
Proof.
  intros Hself Hc Hins Houts Hutf.
  unfold replay. rewrite Hself.
  destruct (replay_reads_counter name w c
              (fun n => print (name +:+ " was called " +:+ Bytes.repr_int n +:+ " times:") ;;
                        let* fxn_inputs := redis_lrange (name +:+ ":inputs") 0 (-1) in
                        let* fxn_outputs := redis_lrange (name +:+ ":outputs") 0 (-1) in
                        replay_loop name (combine fxn_inputs fxn_outputs)) Hc)
    as (cs & ->).
  unfold bind at 1. unfold print at 1. cbv beta iota.
  unfold bind at 1. fold (inputs_key name).
  rewrite (redis_lrange_all (inputs_key name) _ ins) by exact Hins.
  unfold bind at 1. fold (outputs_key name).
  rewrite (redis_lrange_all (outputs_key name) _ outs) by exact Houts.
  rewrite combine_bytes, (replay_loop_prints name _ Hutf).
  cbn [server wire entropy stdout].
  exists (cs ++ [LRANGE (inputs_key name) 0 (-1); LRANGE (outputs_key name) 0 (-1)]).
  rewrite <- !app_assoc. reflexivity.
Qed.

Lemma Cache_run (w : world) :
  Cache w = (Ok (Instance (Some Redis)),
             World ∅ (wire w ++ [FLUSHDB]) (entropy w) (stdout w)).
Proof. reflexivity. Qed.

Lemma tidy_empty (w : world) : server w = ∅ -> tidy w 0 [] [].
Proof.
  intros H. unfold tidy, counter_value, log_of. rewrite H, !lookup_empty. auto.
Qed.

Lemma combine_fmap {A B C D} (f : A -> C) (g : B -> D) (xs : list A) (ys : list B) :
  combine (map f xs) (map g ys) = map (fun p => (f (fst p), g (snd p))) (combine xs ys).
Proof.
  revert ys. induction xs as [|x xs IH]; intros [|y ys]; cbn; try reflexivity.
  rewrite IH. reflexivity.
Qed.

(** X6. A fresh cache, one [store] per value, then [replay(cache.store)]:
    when the client accepts every value and the texts involved are
    well-formed, the run returns and prints the header with the number of
    calls, then one line per call in order, each with [str(args)] of the
    call and the key the call returned. *)
Theorem replay_shows_every_store (ds : list pyval) (w0 : world) :
  Forall (fun d => encode d <> None) ds ->
  Z.of_nat (length ds) <= int64_max ->
  Forall (fun d => Bytes.valid_utf8 (str_args [d]) = true) ds ->
  (forall n, Bytes.valid_utf8 (uuid4 n) = true) ->
  exists w',
    store_all_then_replay ds w0 = (Ok tt, w')
    /\ stdout w'
       = stdout w0
         ++ ("Cache.store was called " +:+ Bytes.repr_int (Z.of_nat (length ds))
             +:+ " times:")
            :: map (fun p => "Cache.store" +:+ "(" +:+ "*" +:+ str_args [fst p]
                             +:+ ") -> " +:+ uuid4 (snd p))
                   (combine ds (seq (entropy w0) (length ds))).
Proof.
  intros Hok Hn Hargs Hkeys.
  unfold store_all_then_replay. unfold bind at 1. rewrite Cache_run.
  set (w1 := World ∅ _ _ _). set (cache := Instance (Some Redis)).
  destruct (call_each_stores cache eq_refl ds w1 0 [] [] Hok
              (tidy_empty w1 eq_refl) ltac:(lia))
    as (w2 & Hrun & (Hc & Hi & Ho) & Hout & _).
  unfold bind at 1. rewrite Hrun. change (__qualname__ Cache_store) with "Cache.store".
  cbn [app] in Hi, Ho. rewrite Z.add_0_l in Hc.
  destruct (replay_prints cache "Cache.store" w2 _ _ _ eq_refl Hc Hi Ho) as (cs & ->).
  - rewrite combine_fmap. apply Forall_fmap.
    clear - Hargs Hkeys. generalize (seq (entropy w1) (length ds)) as ks.
    induction Hargs as [|d ds Hd _ IH]; intros [|k ks]; cbn; constructor.
    + split; [exact Hd | apply Hkeys].
    + apply IH.
  - eexists. split; [reflexivity|]. cbn [stdout]. rewrite Hout.
    rewrite combine_fmap, map_map. reflexivity.
Qed.


Lemma escape_all_length (quote : ascii) (s : string) :
  (String.length s <= String.length (Bytes.escape_all quote s))%nat.
Proof.
  induction s as [|c s IH]; [reflexivity|]. cbn [Bytes.escape_all String.length].
  rewrite length_append.
  assert (1 <= String.length (Bytes.escape quote c))%nat; [|lia].
  unfold Bytes.escape.
  repeat match goal with |- context [if ?b then _ else _] => destruct b end; cbn; lia.
Qed.

Lemma repr_bytes_length (b : string) :
  (String.length b + 3 <= String.length (Bytes.repr b))%nat.
Proof.
  unfold Bytes.repr. cbn [String.length]. rewrite length_append. cbn [String.length].
  pose proof (escape_all_length
                (if Bytes.mem Bytes.squote b && negb (Bytes.mem Bytes.dquote b)
                 then Bytes.dquote else Bytes.squote) b).
  lia.
Qed.

(** X7. [get_int] on the key [store] returned, for a stored value the
    interpreter can print (an integer of at most 4300 digits, or a value of
    another type): when the stored bytes hold at most 4300 digits,
    [get_int] reads them as a base-10 integer, returning the integer when
    they are one and raising [ValueError] when they are not; and a stored
    [int] comes back as itself. *)
Theorem get_int_of_stored (self : instance) (data : pyval) (b : string)
    (w : world) (n : Z) (ins outs : list string) :
  _redis self = Some Redis -> tidy w n ins outs -> n < int64_max ->
  printable data = true -> encode data = Some b ->
  exists w1,
    __call__ Cache_store self [data] [] w = (Ok (VStr (uuid4 (entropy w))), w1)
    /\ (readable b = true ->
        fst (get_int self (uuid4 (entropy w)) w1)
        = match Bytes.parse_int b with
          | Some z => Ok (VInt z)
          | None => Raise ValueError
          end)
    /\ (forall z, data = VInt z ->
                  fst (get_int self (uuid4 (entropy w)) w1) = Ok (VInt z)).
Proof.
  intros Hself Ht Hn Hprint Hb.
  pose proof (Cache_store_any self [data] [] w n ins outs Hself Ht Hn) as Hc.
  cbv zeta in Hc. cbn [bind_data ret fst] in Hc. rewrite Hb in Hc.
  set (w1 := World _ _ _ _) in Hc. exists w1. split; [exact Hc|].
  destruct (uuid4_fresh_key (entropy w)) as (Un & Ui & Uo).
  assert (Hk : server w1 !! uuid4 (entropy w) = Some (RString b)).
  { subst w1. cbn [server].
    rewrite lookup_insert_ne by (intros H; apply Uo; symmetry; exact H).
    apply lookup_insert_eq. }
  pose proof (get_int_present self _ b w1 Hself Hk) as Hint.
  split; [intros _; exact Hint|]. intros z ->. injection Hb as <-.
  rewrite Hint, parse_int_repr_int. reflexivity.
Qed.

(** X8. [get_str] on the key [store] returned gives the text of the bytes
    literal of what was stored, [b'...'] with its escapes: at least three
    characters longer than the stored bytes, so never the stored text. *)
Theorem get_str_of_stored (self : instance) (data : pyval) (b : string)
    (w : world) (n : Z) (ins outs : list string) :
  _redis self = Some Redis -> tidy w n ins outs -> n < int64_max ->
  encode data = Some b ->
  exists w1,
    __call__ Cache_store self [data] [] w = (Ok (VStr (uuid4 (entropy w))), w1)
    /\ fst (Cache_get_str self (uuid4 (entropy w)) w1) = Ok (VStr (Bytes.repr b))
    /\ (String.length b + 3 <= String.length (Bytes.repr b))%nat
    /\ fst (Cache_get_str self (uuid4 (entropy w)) w1) <> Ok (VStr b).
Proof.
  intros Hself Ht Hn Hb.
  pose proof (Cache_store_any self [data] [] w n ins outs Hself Ht Hn) as Hc.
  cbv zeta in Hc. cbn [bind_data ret fst] in Hc. rewrite Hb in Hc.
  set (w1 := World _ _ _ _) in Hc. exists w1. split; [exact Hc|].
  destruct (uuid4_fresh_key (entropy w)) as (Un & Ui & Uo).
  assert (Hk : server w1 !! uuid4 (entropy w) = Some (RString b)).
  { subst w1. cbn [server].
    rewrite lookup_insert_ne by (intros H; apply Uo; symmetry; exact H).
    apply lookup_insert_eq. }
  pose proof (Cache_get_str_present self _ b w1 Hself Hk) as Hstr.
  pose proof (repr_bytes_length b) as Hlen.
  split; [exact Hstr|]. split; [exact Hlen|].
  rewrite Hstr. intros [= H]. rewrite H in Hlen. lia.
Qed.

(** X9. The facade reads the logs as it reads any key.  After a call of
    [Cache.store] whose arguments the interpreter can print (integers of at
    most 4300 digits), from a state where the logs are readable and the
    counter is readable and below the largest 64-bit integer, whether the
    call returned or raised [TypeError] or [DataError]: [get] on the Inputs
    key raises the server's [WRONGTYPE] error, a list being kept there, and
    does so without calling [fn]; [get_str] and [get_int] raise the
    same. *)
Theorem get_on_inputs_log_raises (self : instance) (args : list pyval)
    (kwargs : list (string * pyval)) (fn : option (pyval -> M pyval))
    (w : world) (n : Z) (ins outs : list string) :
  _redis self = Some Redis -> tidy w n ins outs -> n < int64_max ->
  call_printable args kwargs = true ->
  let w1 := snd (__call__ Cache_store self args kwargs w) in
  Cache_get self (inputs_key "Cache.store") fn w1
  = (Raise WRONGTYPE,
     World (server w1) (wire w1 ++ [GET (inputs_key "Cache.store")])
           (entropy w1) (stdout w1))
  /\ fst (Cache_get_str self (inputs_key "Cache.store") w1) = Raise WRONGTYPE
  /\ fst (get_int self (inputs_key "Cache.store") w1) = Raise WRONGTYPE.
Proof.
  intros Hself Ht Hn Hprint w1.
  assert (Hl : server w1 !! inputs_key "Cache.store"
               = Some (RList (ins ++ [str_args args]))).
  { subst w1.
    destruct (Cache_store_cases self args kwargs w n ins outs Hself Ht Hn)
      as (r & w' & Hc & _ & _ & [(_ & _ & _ & _ & _ & _ & (_ & Hi & _) & _)
                                 | (_ & _ & (_ & Hi & _) & _)]);
      rewrite Hc; cbn [snd]; unfold log_of in Hi;
      destruct (server w' !! inputs_key "Cache.store") as [[s|l]|];
      try discriminate; injection Hi as Hi.
    - congruence.
    - destruct ins; discriminate Hi.
    - congruence.
    - destruct ins; discriminate Hi. }
  assert (Hget : forall fn', Cache_get self (inputs_key "Cache.store") fn' w1
                 = (Raise WRONGTYPE,
                    World (server w1) (wire w1 ++ [GET (inputs_key "Cache.store")])
                          (entropy w1) (stdout w1))).
  { intros fn'. unfold Cache_get, bind, self_redis. rewrite Hself.
    unfold ret at 1. cbv beta iota.
    unfold redis_get, bind, send, lookup_key. cbn [server]. rewrite Hl. reflexivity. }
  split; [apply Hget|]. unfold Cache_get_str, get_int, bind. rewrite Hget.
  split; reflexivity.
Qed.

End Store_runs.


(** ** A new cache, and reading *)

(** X10. [Cache()] empties the server, whatever it held: on the new cache
    every key reads as unset through [get], [get_str] and [get_int], and
    [replay] of any method prints the header with 0 calls and no line. *)
Theorem Cache_init_clears (w0 : world) (key name : string) :
  exists cache w',
    Cache w0 = (Ok cache, w')
    /\ _redis cache = Some Redis
    /\ server w' = ∅
    /\ fst (Cache_get cache key None w') = Ok VNone
    /\ fst (Cache_get_str cache key w') = Ok VNone
    /\ fst (get_int cache key w') = Ok VNone
    /\ fst (replay (BoundMethod cache name) w') = Ok tt
    /\ stdout (snd (replay (BoundMethod cache name) w'))
       = stdout w0 ++ [name +:+ " was called 0 times:"].
Proof.
  exists (Instance (Some Redis)), (World ∅ (wire w0 ++ [FLUSHDB]) (entropy w0) (stdout w0)).
  set (cache := Instance (Some Redis)). set (w' := World ∅ _ _ _).
  assert (Hk : forall k, server w' !! k = None) by (intros k; apply lookup_empty).
  destruct (typed_getters_absent cache key w' eq_refl (Hk key)) as (Hs & Hi).
  destruct (replay_prints cache name w' 0 [] [] eq_refl) as (cs & Hr).
  - unfold counter_value. rewrite Hk. reflexivity.
  - unfold log_of. rewrite Hk. reflexivity.
  - unfold log_of. rewrite Hk. reflexivity.
  - constructor.
  - repeat split; try assumption; try reflexivity;
      try (rewrite Hr; reflexivity);
      try (rewrite (Cache_get_absent cache key None w' eq_refl (Hk key)); reflexivity).
Qed.

(** X11. The counter read back through the facade: after one or more calls
    of a [count_calls]-wrapped operation from an unset counter, the
    operation not writing the key, [get_int] on the name of the operation
    returns the number of calls, as does [get] with [fn=int]. *)
Theorem get_int_reads_the_counter (method : pymethod) (self : instance)
    (calls : list (list pyval * list (string * pyval))) (w : world) :
  _redis self = Some Redis ->
  leaves method (__qualname__ method) ->
  server w !! __qualname__ method = None ->
  calls <> [] ->
  Z.of_nat (length calls) <= int64_max ->
  let w' := snd (attempt_each (count_calls method) self calls w) in
  fst (get_int self (__qualname__ method) w') = Ok (VInt (Z.of_nat (length calls)))
  /\ fst (Cache_get self (__qualname__ method) (Some int_fn) w')
     = Ok (VInt (Z.of_nat (length calls))).
Proof.
  intros Hself Hm Hfresh Hne Hn w'.
  assert (Hc : counter_value w' (__qualname__ method) = Some (Z.of_nat (length calls))).
  { subst w'. rewrite <- (Z.add_0_l (Z.of_nat (length calls))).
    apply (count_calls_many method self Hself Hm calls w 0); [|lia].
    unfold counter_value. rewrite Hfresh. reflexivity. }
  unfold counter_value in Hc.
  destruct (server w' !! __qualname__ method) as [[b|l]|] eqn:Hk; [| discriminate |].
  - apply string2ll_canonical in Hc as (_ & Hp & _).
    pose proof (get_int_present self _ b w' Hself Hk) as Hi.
    rewrite Hp in Hi. split; [exact Hi|].
    rewrite (Cache_get_present self _ b (Some int_fn) w' Hself Hk).
    unfold int_fn, py_int, bind. rewrite Hp. reflexivity.
  - injection Hc as Hc. destruct calls; [congruence | discriminate Hc].
Qed.

(** X12. Reading through the facade writes nothing: [get] without [fn],
    [get_str] and [get_int] leave every key of the server, the output and
    the identifier stream as they were, whatever the object, the key and
    what the key holds, and whether they return or raise. *)
Theorem retrieval_is_read_only (self : instance) (key : string) (w : world) :
  (server (snd (Cache_get self key None w)) = server w
   /\ stdout (snd (Cache_get self key None w)) = stdout w
   /\ entropy (snd (Cache_get self key None w)) = entropy w)
  /\ (server (snd (Cache_get_str self key w)) = server w
      /\ stdout (snd (Cache_get_str self key w)) = stdout w
      /\ entropy (snd (Cache_get_str self key w)) = entropy w)
  /\ (server (snd (get_int self key w)) = server w
      /\ stdout (snd (get_int self key w)) = stdout w
      /\ entropy (snd (get_int self key w)) = entropy w).
Proof.
  assert (Hget : exists r cs, Cache_get self key None w
                 = (r, World (server w) (wire w ++ cs) (entropy w) (stdout w))).
  { unfold Cache_get, bind, self_redis.
    destruct (_redis self) as [[|v]|].
    - unfold ret at 1. cbv beta iota.
      unfold redis_get, bind, send, lookup_key. cbn [server].
      destruct (server w !! key) as [[b|l]|]; eexists _, [GET key]; reflexivity.
    - exists (Raise (AttributeError "get")), []. rewrite app_nil_r.
      destruct w; reflexivity.
    - exists (Raise (AttributeError "_redis")), []. rewrite app_nil_r.
      destruct w; reflexivity. }
  destruct Hget as (r & cs & Hget).
  split; [rewrite Hget; auto|]. split.
  - unfold Cache_get_str, bind. rewrite Hget.
    destruct r as [[]|e]; auto.
  - unfold get_int, bind. rewrite Hget. destruct r as [d|e]; [|auto].
    destruct d; try (cbn; auto; fail);
      match goal with
      | |- context [py_int ?v ?w1] =>
          pose proof (py_int_world v w1) as Hw; destruct (py_int v w1) as [[z|e] w2];
          cbn [snd] in Hw; subst w2; auto
      end.
Qed.

(** ** The decorators when the server refuses *)

Lemma redis_incr_refused (key : string) (w : world) :
  counter_value w key = None \/ counter_value w key = Some int64_max ->
  exists message,
    redis_incr key w
    = (Raise (ResponseError message),
       World (server w) (wire w ++ [INCR key]) (entropy w) (stdout w)).
Proof.
  unfold counter_value, redis_incr, bind, send, lookup_key, raise. cbn [server].
  destruct (server w !! key) as [[b|l]|].
  - intros [H | H]; rewrite H; [eexists; reflexivity|].
    rewrite Z.ltb_irrefl. eexists. reflexivity.
  - intros _. eexists. reflexivity.
  - intros [H | H]; [discriminate H | injection H as H; discriminate H].
Qed.

(** X13. When the counter key cannot be incremented, because it holds a
    list, a string that is not a 64-bit integer, or the largest one, a call
    through [count_calls] raises the server's error after the one [INCR]:
    the wrapped operation is not called and nothing is written. *)
Theorem count_calls_blocked (method : pymethod) (self : instance)
    (args : list pyval) (kwargs : list (string * pyval)) (w : world) :
  _redis self = Some Redis ->
  counter_value w (__qualname__ method) = None
  \/ counter_value w (__qualname__ method) = Some int64_max ->
  exists message,
    __call__ (count_calls method) self args kwargs w
    = (Raise (ResponseError message),
       World (server w) (wire w ++ [INCR (__qualname__ method)]) (entropy w) (stdout w)).
Proof.
  intros Hself Hc. rewrite (count_calls_unfold method self args kwargs w Hself).
  destruct (redis_incr_refused _ w Hc) as (message & ->). exists message. reflexivity.
Qed.

(** X14. An operation under [call_history] must return something the client
    can encode.  When it returns a value the client refuses, [None] or a
    [bool], the call raises [DataError] although the operation has run: the
    world is as the operation left it, with the input logged before it ran
    and no output logged. *)
Theorem call_history_refused_output (method : pymethod) (self : instance)
    (args : list pyval) (kwargs : list (string * pyval))
    (w w2 : world) (ins : list string) (output : pyval) :
  _redis self = Some Redis ->
  log_of w (inputs_key (__qualname__ method)) = Some ins ->
  __call__ method self args kwargs
    (World (<[inputs_key (__qualname__ method) := RList (ins ++ [str_args args])]> (server w))
           (wire w ++ [RPUSH (inputs_key (__qualname__ method)) (str_args args)])
           (entropy w) (stdout w))
  = (Ok output, w2) ->
  encode output = None ->
  __call__ (call_history method) self args kwargs w = (Raise DataError, w2).
Proof.
  intros Hself Hins Hcall Hout.
  rewrite (call_history_unfold method self args kwargs w ins Hself Hins).
  unfold written. rewrite Hcall.
  rewrite (redis_rpush_refused _ output w2 Hout). reflexivity.
Qed.


(** ** [replay] on keys it cannot read *)

(** X15. [replay] raises what the client or [int] raises.  When the counter
    key holds a list it raises [WRONGTYPE], and when it holds bytes [int]
    rejects it raises [ValueError], in both cases before anything is
    printed.  When the counter is readable and the Inputs key holds a
    string, it raises [WRONGTYPE] with the header already printed. *)
Theorem replay_on_unreadable_keys (self : instance) (name : string) (w : world) :
  _redis self = Some Redis ->
  (forall l, server w !! name = Some (RList l) ->
             fst (replay (BoundMethod self name) w) = Raise WRONGTYPE
             /\ stdout (snd (replay (BoundMethod self name) w)) = stdout w)
  /\ (forall b, server w !! name = Some (RString b) -> b <> "" ->
                Bytes.parse_int b = None ->
                fst (replay (BoundMethod self name) w) = Raise ValueError
                /\ stdout (snd (replay (BoundMethod self name) w)) = stdout w)
  /\ (forall c b, counter_value w name = Some c ->
                  server w !! inputs_key name = Some (RString b) ->
                  fst (replay (BoundMethod self name) w) = Raise WRONGTYPE
                  /\ stdout (snd (replay (BoundMethod self name) w))
                     = stdout w ++ [name +:+ " was called " +:+ Bytes.repr_int c
                                    +:+ " times:"]).
Proof.
  intros Hself. split; [|split].
  - intros l Hk.
    assert (H : replay (BoundMethod self name) w
                = (Raise WRONGTYPE,
                   World (server w) (wire w ++ [EXISTS name; GET name])
                         (entropy w) (stdout w))).
    { unfold replay. rewrite Hself.
      unfold bind at 1. unfold redis_exists, bind, send, lookup_key. cbn [server].
      rewrite Hk. unfold ret at 1. cbv beta iota. change (negb (1 =? 0)) with true.
      cbv iota. unfold redis_get, bind, send, lookup_key. cbn [server]. rewrite Hk.
      unfold raise. cbn [server wire entropy stdout]. rewrite <- app_assoc. reflexivity. }
    rewrite H. split; reflexivity.
  - intros b Hk Hb Hp.
    assert (H : replay (BoundMethod self name) w
                = (Raise ValueError,
                   World (server w) (wire w ++ [EXISTS name; GET name])
                         (entropy w) (stdout w))).
    { unfold replay. rewrite Hself.
      unfold bind at 1. unfold redis_exists, bind, send, lookup_key. cbn [server].
      rewrite Hk. unfold ret at 1. cbv beta iota. change (negb (1 =? 0)) with true.
      cbv iota. unfold redis_get, bind, send, lookup_key. cbn [server]. rewrite Hk.
      unfold ret at 1. cbv beta iota. cbn [truthy].
      replace (String.eqb b "") with false
        by (symmetry; apply String.eqb_neq; exact Hb).
      cbn [negb]. unfold py_int. rewrite Hp.
      unfold raise. cbn [server wire entropy stdout]. rewrite <- app_assoc. reflexivity. }
    rewrite H. split; reflexivity.
  - intros c b Hc Hk.
    assert (H : exists cs,
               replay (BoundMethod self name) w
               = (Raise WRONGTYPE,
                  World (server w) (wire w ++ cs) (entropy w)
                        (stdout w ++ [name +:+ " was called " +:+ Bytes.repr_int c
                                      +:+ " times:"]))).
    { unfold replay. rewrite Hself.
      destruct (replay_reads_counter name w c
                  (fun n => print (name +:+ " was called " +:+ Bytes.repr_int n
                                   +:+ " times:") ;;
                            let* fxn_inputs := redis_lrange (name +:+ ":inputs") 0 (-1) in
                            let* fxn_outputs := redis_lrange (name +:+ ":outputs") 0 (-1) in
                            replay_loop name (combine fxn_inputs fxn_outputs)) Hc)
        as (cs & ->).
      unfold bind at 1. unfold print at 1. cbv beta iota.
      unfold bind at 1. fold (inputs_key name).
      unfold redis_lrange, bind, send, lookup_key. cbn [server]. rewrite Hk.
      exists (cs ++ [LRANGE (inputs_key name) 0 (-1)]).
      unfold raise. cbn [server wire entropy stdout]. rewrite <- app_assoc. reflexivity. }
    destruct H as (cs & ->). split; reflexivity.
Qed.

End Exercise.

(** * The properties on runs of the sample interpreter *)

Arguments VNone {pyfloat}.
Arguments VBool {pyfloat} b.
Arguments VStr {pyfloat} s.
Arguments VBytes {pyfloat} b.
Arguments VInt {pyfloat} z.
Arguments Redis {pyfloat}.
Arguments Other {pyfloat} v.
Arguments Instance {pyfloat} _.
Arguments Method {pyfloat} _ _.
Arguments __call__ {pyfloat} _ _ _ _ _.
Arguments __qualname__ {pyfloat} _.
Arguments BoundMethod {pyfloat} self qualname.

Local Abbreviation s_store :=
  (store Empty_set Sample.repr_float Sample.uuid4).
Local Abbreviation s_call_history :=
  (call_history Empty_set Sample.repr_float Bytes.repr_ascii).
Local Abbreviation s_count_calls := (count_calls Empty_set).
Local Abbreviation s_Cache_store :=
  (Cache_store Empty_set Sample.repr_float Bytes.repr_ascii Sample.uuid4).
Local Abbreviation s_replay :=
  (replay Empty_set Sample.repr_float (fun f : Empty_set => match f with end)
          Bytes.repr_ascii Bytes.parse_int).
Local Abbreviation s_str_args :=
  (str_args Empty_set Sample.repr_float Bytes.repr_ascii).
Local Abbreviation s_encode := (encode Empty_set Sample.repr_float).
Local Abbreviation s_Cache_get := (Cache_get Empty_set).
Local Abbreviation fresh := (World ∅ [] 0%nat []).
Local Abbreviation cache := (@Instance Empty_set (Some Redis)).
Local Abbreviation no_kwargs := (@nil (string * pyval Empty_set)).
Local Abbreviation foo_bar :=
  ([([@VStr Empty_set "foo"], no_kwargs); ([@VStr Empty_set "bar"], no_kwargs)]).
Local Abbreviation key1 := "1b4e28ba-2fa1-41d2-883f-0016d3cca427".
Local Abbreviation key2 := "6fa459ea-ee8a-4ca4-894e-db77e160355e".

Lemma sample_uuid4_length (n : nat) : String.length (Sample.uuid4 n) = 36%nat.
Proof. destruct n as [|[|n]]; reflexivity. Qed.

(** A call of [store], decorated, on an object whose [_redis] is a string:
    the function runs and raises as it does undecorated, nothing is sent. *)
Lemma decorators_skip_foreign_handle_witness :
  let self := @Instance Empty_set (Some (Other (VStr "not a client"))) in
  __call__ (s_count_calls s_store) self [VStr "foo"] [] fresh
  = __call__ s_store self [VStr "foo"] [] fresh
  /\ __call__ (s_call_history s_store) self [VStr "foo"] [] fresh
     = __call__ s_store self [VStr "foo"] [] fresh
  /\ __call__ (s_count_calls (s_call_history s_store)) self [VStr "foo"] [] fresh
     = __call__ s_store self [VStr "foo"] [] fresh.
Proof.
  exact (decorators_skip_foreign_handle Empty_set Sample.repr_float Bytes.repr_ascii
           s_store (Instance (Some (Other (VStr "not a client"))))
           (VStr "not a client") [VStr "foo"] [] fresh eq_refl).
Defined.

Lemma sample_history_leaves_counter :
  leaves Empty_set (s_call_history s_store) "Cache.store".
Proof.
  apply call_history_leaves.
  - apply store_leaves; [exact sample_uuid4_length | discriminate].
  - discriminate.
  - discriminate.
Qed.

(** Three calls of [Cache.store] on a fresh cache, the second with [None],
    which the client refuses: the counter reads 3. *)
Lemma count_calls_counter_witness :
  counter_value
    (snd (attempt_each Empty_set s_Cache_store cache
            [([VStr "foo"], []); ([VNone], []); ([VInt 7], [])] fresh))
    "Cache.store"
  = Some 3.
Proof.
  exact (proj2 (proj2 (count_calls_counter Empty_set (s_call_history s_store) cache
                         eq_refl))
               [([VStr "foo"], []); ([VNone], []); ([VInt 7], [])] fresh
               sample_history_leaves_counter eq_refl
               ltac:(unfold int64_max; simpl; lia)).
Defined.

Lemma sample_store_leaves (k : string) :
  String.length k <> 36%nat -> leaves Empty_set s_store k.
Proof. apply store_leaves, sample_uuid4_length. Qed.

Local Abbreviation s_decorated :=
  (decorated Empty_set Sample.repr_float Bytes.repr_ascii).

Lemma sample_two_calls :
  call_each Empty_set (s_decorated true s_store) cache foo_bar fresh
  = (Ok [VStr key1; VStr key2],
     snd (call_each Empty_set (s_decorated true s_store) cache foo_bar fresh)).
Proof. vm_compute. reflexivity. Qed.

(** [Cache.store("foo")] and [Cache.store("bar")] on a fresh cache: the
    Inputs log holds the texts of the two tuples, the Outputs log the two
    keys. *)
Lemma call_history_aligned_witness :
  log_of (snd (call_each Empty_set (s_decorated true s_store) cache foo_bar fresh))
         (inputs_key "Cache.store") = Some ["('foo',)"; "('bar',)"]
  /\ log_of (snd (call_each Empty_set (s_decorated true s_store) cache foo_bar fresh))
            (outputs_key "Cache.store") = Some [key1; key2].
Proof.
  destruct (call_history_aligned Empty_set Sample.repr_float Bytes.repr_ascii
              true s_store cache foo_bar fresh
              (snd (call_each Empty_set (s_decorated true s_store) cache foo_bar fresh))
              [VStr key1; VStr key2]
              eq_refl
              (sample_store_leaves (inputs_key "Cache.store") ltac:(discriminate))
              (sample_store_leaves (outputs_key "Cache.store") ltac:(discriminate))
              eq_refl eq_refl sample_two_calls)
    as (ins & outs & Hi & Ho & Li & Lo & _ & Hidx).
  destruct (Hidx 0%nat [VStr "foo"] no_kwargs (VStr key1) eq_refl eq_refl)
    as (I0 & _ & O0).
  destruct (Hidx 1%nat [VStr "bar"] no_kwargs (VStr key2) eq_refl eq_refl)
    as (I1 & _ & O1).
  change (__qualname__ s_store) with "Cache.store" in Hi, Ho.
  rewrite Hi, Ho.
  destruct ins as [|i0 [|i1 [|i2 ins]]]; try discriminate Li.
  destruct outs as [|o0 [|o1 [|o2 outs]]]; try discriminate Lo.
  injection I0 as ->. injection I1 as ->. injection O0 as ->. injection O1 as ->.
  split; reflexivity.
Defined.

(** [store(None)] under [call_history] on a fresh server: the client refuses
    [None], the input is logged, no output is. *)
Lemma call_history_failure_witness :
  __call__ (s_call_history s_store) cache [VNone] [] fresh
  = (Raise DataError,
     World (<["Cache.store:inputs" := RList ["(None,)"]]> ∅)
           [RPUSH "Cache.store:inputs" "(None,)"] 1%nat [])
  /\ (leaves Empty_set s_store "Cache.store:inputs" ->
      leaves Empty_set s_store "Cache.store:outputs" ->
      log_of (World (<["Cache.store:inputs" := RList ["(None,)"]]> ∅)
                    [RPUSH "Cache.store:inputs" "(None,)"] 1%nat [])
             "Cache.store:inputs" = Some ([] ++ ["(None,)"])
      /\ log_of (World (<["Cache.store:inputs" := RList ["(None,)"]]> ∅)
                       [RPUSH "Cache.store:inputs" "(None,)"] 1%nat [])
                "Cache.store:outputs" = Some []
      /\ (length (@nil string) = length (@nil string) ->
          (length (@nil string) < length ([] ++ ["(None,)"]))%nat)).
Proof.
  exact (call_history_failure Empty_set Sample.repr_float Bytes.repr_ascii
           s_store cache [VNone] [] fresh
           (World (<["Cache.store:inputs" := RList ["(None,)"]]> ∅)
                  [RPUSH "Cache.store:inputs" "(None,)"] 1%nat [])
           [] [] DataError eq_refl eq_refl eq_refl eq_refl).
Defined.

(** [Cache.store("foo")] on a fresh cache. *)
Lemma Cache_store_layers_witness :
  s_Cache_store = s_count_calls (s_call_history s_store)
  /\ exists w',
      __call__ s_Cache_store cache [VStr "foo"] [] fresh = (Ok (VStr key1), w')
      /\ wire w' = [INCR "Cache.store"; RPUSH "Cache.store:inputs" "('foo',)";
                    SET key1 "foo"; RPUSH "Cache.store:outputs" key1]
      /\ counter_value w' "Cache.store" = Some 1
      /\ log_of w' "Cache.store:inputs" = Some ["('foo',)"]
      /\ log_of w' "Cache.store:outputs" = Some [key1]
      /\ server w' !! key1 = Some (RString "foo").
Proof.
  exact (Cache_store_layers Empty_set Sample.repr_float Bytes.repr_ascii Sample.uuid4
           sample_uuid4_length cache (VStr "foo") "foo" fresh 0 [] []
           eq_refl eq_refl eq_refl eq_refl eq_refl eq_refl).
Defined.

Local Abbreviation s_int_fn :=
  (int_fn Empty_set (fun f : Empty_set => match f with end) Bytes.parse_int).
Local Abbreviation s_decode_fn := (decode_fn Empty_set).



(** The world a partial failure leaves: [store("foo")] returned and
    [store(None)] raised on a fresh cache.  [replay] prints the header and
    the one pair. *)
Lemma replay_pairs_witness :
  exists w' lines,
    s_replay (BoundMethod cache "Cache.store")
      (snd (attempt_each Empty_set s_Cache_store cache
              [([VStr "foo"], no_kwargs); ([VNone], no_kwargs)] fresh))
    = (Ok tt, w')
    /\ stdout w' = [] ++ "Cache.store was called 2 times:" :: lines
    /\ length lines = Nat.min 2 1
    /\ (forall (i : nat) a b,
           ["('foo',)"; "(None,)"] !! i = Some a -> [key1] !! i = Some b ->
           lines !! i = Some ("Cache.store" +:+ "(" +:+ "*" +:+ a +:+ ") -> " +:+ b))
    /\ server w'
       = server (snd (attempt_each Empty_set s_Cache_store cache
                        [([VStr "foo"], no_kwargs); ([VNone], no_kwargs)] fresh)).
Proof.
  exact (replay_pairs Empty_set Sample.repr_float
           (fun f : Empty_set => match f with end) Bytes.repr_ascii Bytes.parse_int
           cache "Cache.store"
           (snd (attempt_each Empty_set s_Cache_store cache
                   [([VStr "foo"], no_kwargs); ([VNone], no_kwargs)] fresh))
           2 ["('foo',)"; "(None,)"] [key1]
           eq_refl eq_refl eq_refl eq_refl
           ltac:(repeat constructor)).
Defined.

(** A log entry that is not UTF-8: a byte [0xff] in the Inputs log makes
    [replay] raise after the header, before any pair is printed. *)
Lemma replay_invalid_utf8_counterexample :
  let w := World (<["Cache.store:inputs" := RList [String (ascii_of_N 255) ""]]>
                    (<["Cache.store:outputs" := RList ["x"]]> ∅)) [] 0%nat [] in
  fst (s_replay (BoundMethod cache "Cache.store") w) = Raise UnicodeDecodeError
  /\ stdout (snd (s_replay (BoundMethod cache "Cache.store") w))
     = ["Cache.store was called 0 times:"].
Proof. split; vm_compute; reflexivity. Qed.

(** C9, at [cache = Cache(); key = cache.store("foo")]: [cache.get_str(key)]
    returns the text of the bytes literal, not the text stored;
    [cache.get_int(key)] finds no attribute [get_int], the function being
    one of the module, where [get_int(cache, key)] on a stored [42] does
    return 42. *)
Theorem typed_getters_on_foo :
  fst (store_then_get_str Empty_set Sample.repr_float Bytes.repr_ascii Sample.uuid4
         (VStr "foo") fresh) = Ok (VStr "b'foo'")
  /\ fst (store_then_call Empty_set Sample.repr_float Bytes.repr_ascii Sample.uuid4
            "get_int" (VStr "foo") fresh) = Raise (AttributeError "get_int")
  /\ assoc "get_int" Cache_body = None
  /\ In "get_int" module_body
  /\ fst (store_then_get_int Empty_set Sample.repr_float
            (fun f : Empty_set => match f with end) Bytes.repr_ascii Bytes.parse_int
            Sample.uuid4 (VInt 42) fresh) = Ok (VInt 42).
Proof.
  split; [vm_compute; reflexivity|].
  split; [vm_compute; reflexivity|].
  split; [reflexivity|].
  split; [cbn; auto | vm_compute; reflexivity].
Qed.

(** * The further properties on runs of the sample interpreter *)

Local Abbreviation s_bind_data := (bind_data Empty_set).
Local Abbreviation s_get_int :=
  (get_int Empty_set (fun f : Empty_set => match f with end) Bytes.parse_int).
Local Abbreviation s_Cache_get_str :=
  (Cache_get_str Empty_set Sample.repr_float Bytes.repr_ascii).
Local Abbreviation s_ping :=
  (@Method Empty_set "Cache.ping" (fun _ _ _ => ret VNone)).

Lemma small_count (n : Z) : n < 1000 -> n < int64_max.
Proof. unfold int64_max. lia. Qed.

Lemma sample_uuid4_utf8 (n : nat) : Bytes.valid_utf8 (Sample.uuid4 n) = true.
Proof. destruct n as [|[|n]]; reflexivity. Qed.


(** Three calls on a fresh cache: one stored, one refused, one without
    its argument. *)
Lemma Cache_store_counter_and_inputs_in_step_witness :
  exists new,
    tidy (snd (attempt_each Empty_set s_Cache_store cache
                 [([VStr "foo"], no_kwargs); ([VNone], no_kwargs); ([], no_kwargs)]
                 fresh))
         (0 + 3) ([] ++ ["('foo',)"; "(None,)"; "()"]) ([] ++ new)
    /\ (length new <= 3)%nat.
Proof.
  exact (Cache_store_counter_and_inputs_in_step Empty_set Sample.repr_float
           Bytes.repr_ascii Sample.uuid4 sample_uuid4_length cache
           [([VStr "foo"], no_kwargs); ([VNone], no_kwargs); ([], no_kwargs)]
           eq_refl ltac:(repeat constructor)
           fresh 0 [] [] (tidy_empty fresh eq_refl)
           ltac:(unfold int64_max; simpl; lia)).
Defined.

(** [store(None)] raises, then [store("bar")] returns [key2]: index 0 pairs
    the arguments of the first call with the key of the second. *)
Lemma failed_store_shifts_the_pairing_witness :
  exists w1 w2 ins2 outs2,
    __call__ s_Cache_store cache [VNone] no_kwargs fresh = (Raise DataError, w1)
    /\ __call__ s_Cache_store cache [VStr "bar"] no_kwargs w1 = (Ok (VStr key2), w2)
    /\ log_of w2 (inputs_key "Cache.store") = Some ins2
    /\ log_of w2 (outputs_key "Cache.store") = Some outs2
    /\ ins2 !! 0%nat = Some "(None,)"
    /\ outs2 !! 0%nat = Some key2
    /\ server w2 !! key2 = Some (RString "bar").
Proof.
  exact (failed_store_shifts_the_pairing Empty_set Sample.repr_float Bytes.repr_ascii
           Sample.uuid4 sample_uuid4_length cache VNone (VStr "bar") "bar" fresh 0 [] []
           eq_refl (tidy_empty fresh eq_refl) (small_count 1 eq_refl)
           eq_refl eq_refl eq_refl).
Defined.

(** [cache.store(data=7)] on a fresh cache. *)
Lemma keyword_argument_not_logged_witness :
  exists w',
    __call__ s_Cache_store cache [] [("data", VInt 7)] fresh = (Ok (VStr key1), w')
    /\ server w' !! key1 = Some (RString "7")
    /\ log_of w' (inputs_key "Cache.store") = Some ([] ++ ["()"])
    /\ log_of w' (outputs_key "Cache.store") = Some ([] ++ [key1]).
Proof.
  exact (keyword_argument_not_logged Empty_set Sample.repr_float Bytes.repr_ascii
           Sample.uuid4 sample_uuid4_length cache (VInt 7) "7" fresh 0 [] []
           eq_refl (tidy_empty fresh eq_refl) (small_count 0 eq_refl) eq_refl).
Defined.

Local Abbreviation three_values :=
  ([@VStr Empty_set "foo"; VBytes "bar"; VInt 7]).
Local Abbreviation key3 := "16fd2706-8baf-433b-82eb-8c7fada847da".

Lemma sample_three_keys_distinct :
  NoDup (map Sample.uuid4 (seq (entropy fresh) (length three_values))).
Proof.
  apply (bool_decide_unpack _). vm_compute. exact I.
Qed.

(** A text, bytes and an integer stored in turn on a fresh cache. *)
Lemma stored_values_stay_witness :
  exists w',
    call_each Empty_set s_Cache_store cache (one_each Empty_set three_values) fresh
    = (Ok (map (fun i => VStr (Sample.uuid4 i)) (seq 0 3)), w')
    /\ forall (i : nat) d b,
         three_values !! i = Some d -> s_encode d = Some b ->
         fst (s_Cache_get cache (Sample.uuid4 (0 + i)%nat) None w') = Ok (VBytes b).
Proof.
  exact (stored_values_stay Empty_set Sample.repr_float Bytes.repr_ascii Sample.uuid4
           sample_uuid4_length cache three_values fresh 0 [] []
           eq_refl (tidy_empty fresh eq_refl) ltac:(unfold int64_max; simpl; lia)
           ltac:(repeat constructor; discriminate)
           sample_three_keys_distinct).
Defined.

(** [store("foo")], [store("bar")], then [replay(cache.store)]. *)
Lemma replay_shows_every_store_witness :
  exists w',
    store_all_then_replay Empty_set Sample.repr_float
      (fun f : Empty_set => match f with end) Bytes.repr_ascii Bytes.parse_int
      Sample.uuid4 [VStr "foo"; VStr "bar"] fresh
    = (Ok tt, w')
    /\ stdout w'
       = [] ++ "Cache.store was called 2 times:"
            :: map (fun p => "Cache.store" +:+ "(" +:+ "*" +:+ s_str_args [fst p]
                             +:+ ") -> " +:+ Sample.uuid4 (snd p))
                   (combine [@VStr Empty_set "foo"; VStr "bar"] (seq 0 2)).
Proof.
  exact (replay_shows_every_store Empty_set Sample.repr_float
           (fun f : Empty_set => match f with end) Bytes.repr_ascii Bytes.parse_int
           Sample.uuid4 sample_uuid4_length [VStr "foo"; VStr "bar"] fresh
           ltac:(repeat constructor; discriminate)
           ltac:(unfold int64_max; simpl; lia)
           ltac:(repeat constructor)
           sample_uuid4_utf8).
Defined.

(** [get_int(cache, cache.store(42))] *)
Lemma get_int_of_stored_witness :
  exists w1,
    __call__ s_Cache_store cache [VInt 42] no_kwargs fresh = (Ok (VStr key1), w1)
    /\ (readable "42" = true ->
        fst (s_get_int cache key1 w1)
        = match Bytes.parse_int "42" with
          | Some z => Ok (VInt z)
          | None => Raise ValueError
          end)
    /\ (forall z, @VInt Empty_set 42 = VInt z ->
                  fst (s_get_int cache key1 w1) = Ok (VInt z)).
Proof.
  exact (get_int_of_stored Empty_set Sample.repr_float
           (fun f : Empty_set => match f with end) Bytes.repr_ascii Bytes.parse_int
           Sample.uuid4 sample_uuid4_length cache (VInt 42) "42" fresh 0 [] []
           eq_refl (tidy_empty fresh eq_refl) (small_count 0 eq_refl)
           ltac:(vm_compute; reflexivity) eq_refl).
Defined.

(** [cache.get_str(cache.store("foo"))] *)
Lemma get_str_of_stored_witness :
  exists w1,
    __call__ s_Cache_store cache [VStr "foo"] no_kwargs fresh = (Ok (VStr key1), w1)
    /\ fst (s_Cache_get_str cache key1 w1) = Ok (VStr "b'foo'")
    /\ (3 + 3 <= 6)%nat
    /\ fst (s_Cache_get_str cache key1 w1) <> Ok (VStr "foo").
Proof.
  exact (get_str_of_stored Empty_set Sample.repr_float Bytes.repr_ascii
           Sample.uuid4 sample_uuid4_length cache (VStr "foo") "foo" fresh 0 [] []
           eq_refl (tidy_empty fresh eq_refl) (small_count 0 eq_refl) eq_refl).
Defined.

(** [cache.get("Cache.store:inputs")] after [cache.store("foo")]. *)
Lemma get_on_inputs_log_raises_witness :
  let w1 := snd (__call__ s_Cache_store cache [VStr "foo"] no_kwargs fresh) in
  s_Cache_get cache "Cache.store:inputs" None w1
  = (Raise WRONGTYPE,
     World (server w1) (wire w1 ++ [GET "Cache.store:inputs"]) (entropy w1) (stdout w1))
  /\ fst (s_Cache_get_str cache "Cache.store:inputs" w1) = Raise WRONGTYPE
  /\ fst (s_get_int cache "Cache.store:inputs" w1) = Raise WRONGTYPE.
Proof.
  exact (get_on_inputs_log_raises Empty_set Sample.repr_float
           (fun f : Empty_set => match f with end) Bytes.repr_ascii Bytes.parse_int
           Sample.uuid4 sample_uuid4_length cache [VStr "foo"] no_kwargs None fresh 0 [] []
           eq_refl (tidy_empty fresh eq_refl) (small_count 0 eq_refl) eq_refl).
Defined.

(** After the two calls of [Cache.store], [get_int(cache, "Cache.store")]. *)
Lemma get_int_reads_the_counter_witness :
  let w' := snd (attempt_each Empty_set (s_count_calls (s_call_history s_store)) cache
                   foo_bar fresh) in
  fst (s_get_int cache "Cache.store" w') = Ok (VInt 2)
  /\ fst (s_Cache_get cache "Cache.store" (Some s_int_fn) w') = Ok (VInt 2).
Proof.
  exact (get_int_reads_the_counter Empty_set
           (fun f : Empty_set => match f with end) Bytes.parse_int
           (s_call_history s_store) cache foo_bar fresh
           eq_refl sample_history_leaves_counter eq_refl
           ltac:(discriminate) ltac:(unfold int64_max; simpl; lia)).
Defined.

(** [Cache.store("foo")] when the key [Cache.store] holds the text [abc]. *)
Lemma count_calls_blocked_witness :
  exists message,
    __call__ (s_count_calls (s_call_history s_store)) cache [VStr "foo"] no_kwargs
      (World (<["Cache.store" := RString "abc"]> ∅) [] 0%nat [])
    = (Raise (ResponseError message),
       World (<["Cache.store" := RString "abc"]> ∅) ([] ++ [INCR "Cache.store"]) 0%nat []).
Proof.
  exact (count_calls_blocked Empty_set (s_call_history s_store) cache
           [VStr "foo"] no_kwargs
           (World (<["Cache.store" := RString "abc"]> ∅) [] 0%nat [])
           eq_refl (or_introl eq_refl)).
Defined.

(** A method that returns [None], under [call_history]. *)
Lemma call_history_refused_output_witness :
  __call__ (s_call_history s_ping) cache [] no_kwargs fresh
  = (Raise DataError,
     World (<["Cache.ping:inputs" := RList ["()"]]> ∅)
           [RPUSH "Cache.ping:inputs" "()"] 0%nat []).
Proof.
  exact (call_history_refused_output Empty_set Sample.repr_float Bytes.repr_ascii
           s_ping cache [] no_kwargs fresh
           (World (<["Cache.ping:inputs" := RList ["()"]]> ∅)
                  [RPUSH "Cache.ping:inputs" "()"] 0%nat [])
           [] VNone eq_refl eq_refl eq_refl eq_refl).
Defined.

(** [replay(cache.store)] with the counter key holding a list, holding the
    text [abc], and with the Inputs key holding a string. *)
Lemma replay_on_unreadable_keys_witness :
  (fst (s_replay (BoundMethod cache "Cache.store")
          (World (<["Cache.store" := RList ["x"]]> ∅) [] 0%nat []))
   = Raise WRONGTYPE)
  /\ (fst (s_replay (BoundMethod cache "Cache.store")
             (World (<["Cache.store" := RString "abc"]> ∅) [] 0%nat []))
      = Raise ValueError)
  /\ (stdout (snd (s_replay (BoundMethod cache "Cache.store")
                     (World (<["Cache.store:inputs" := RString "x"]> ∅) [] 0%nat [])))
      = [] ++ ["Cache.store was called 0 times:"]).
Proof.
  split; [|split].
  - exact (proj1 (proj1 (replay_on_unreadable_keys Empty_set Sample.repr_float
                           (fun f : Empty_set => match f with end)
                           Bytes.repr_ascii Bytes.parse_int cache "Cache.store"
                           (World (<["Cache.store" := RList ["x"]]> ∅) [] 0%nat [])
                           eq_refl)
                        ["x"] eq_refl)).
  - exact (proj1 (proj1 (proj2 (replay_on_unreadable_keys Empty_set Sample.repr_float
                                  (fun f : Empty_set => match f with end)
                                  Bytes.repr_ascii Bytes.parse_int cache "Cache.store"
                                  (World (<["Cache.store" := RString "abc"]> ∅) [] 0%nat [])
                                  eq_refl))
                        "abc" eq_refl ltac:(discriminate) eq_refl)).
  - exact (proj2 (proj2 (proj2 (replay_on_unreadable_keys Empty_set Sample.repr_float
                                  (fun f : Empty_set => match f with end)
                                  Bytes.repr_ascii Bytes.parse_int cache "Cache.store"
                                  (World (<["Cache.store:inputs" := RString "x"]> ∅)
                                         [] 0%nat [])
                                  eq_refl))
                        0 "x" eq_refl eq_refl)).
Defined.
